(** * pgpool2: the PCP administrative client of pgpool2-exporter

    A shallow embedding of [pgpool2/client.go].  The file has three layers:

    - models of the Go library functions the client calls ([strings],
      [strconv], [unicode/utf8], [regexp], [bufio], [go-semver]);
    - the client itself, function by function, under the names of the source;
    - the properties of the client.

    Go values are represented as follows.  A [string] is its byte sequence
    (Rocq's [string], one [ascii] per byte); an [int] is a [Z]; a rune is
    its code point in [N]; a [float64] is a [spec_float]; an [error] is a
    value of the inductive [error] below; a Go [map] is a [gmap]. *)

From Stdlib Require Import ZArith NArith List String Ascii Lia DecimalString DecimalPos.
From Stdlib Require Import Floats.SpecFloat.
From stdpp Require Import base gmap strings.
From Equations Require Import Equations.
Import ListNotations.

(** ** Bytes and runes *)

Definition byte_of (c : ascii) : N := N_of_ascii c.

Definition newline : ascii := "010"%char.

(** [s[i:]] and [s[:i]] on byte strings. *)
Fixpoint drop_bytes (n : nat) (s : string) : string :=
  match n, s with
  | S n', String _ s' => drop_bytes n' s'
  | _, _ => s
  end.

Fixpoint take_bytes (n : nat) (s : string) : string :=
  match n, s with
  | S n', String c s' => String c (take_bytes n' s')
  | _, _ => ""
  end.

Module Utf8.

Definition RuneError : N := 0xFFFD%N.

(** The table [first] of unicode/utf8, for the non-ASCII bytes: width of
    the sequence a lead byte starts and the range its second byte must lie
    in ([None] for a byte that starts no sequence). *)
Definition first (b : N) : option (nat * N * N) :=
  if (b <? 0xC2)%N then None
  else if (b <=? 0xDF)%N then Some (2, 0x80%N, 0xBF%N)
  else if (b =? 0xE0)%N then Some (3, 0xA0%N, 0xBF%N)
  else if (b <=? 0xEC)%N then Some (3, 0x80%N, 0xBF%N)
  else if (b =? 0xED)%N then Some (3, 0x80%N, 0x9F%N)
  else if (b <=? 0xEF)%N then Some (3, 0x80%N, 0xBF%N)
  else if (b =? 0xF0)%N then Some (4, 0x90%N, 0xBF%N)
  else if (b <=? 0xF3)%N then Some (4, 0x80%N, 0xBF%N)
  else if (b =? 0xF4)%N then Some (4, 0x80%N, 0x8F%N)
  else None.

Definition byte_at (s : string) (i : nat) : N :=
  match String.get i s with
  | Some c => byte_of c
  | None => 0%N
  end.

Definition outside (lo hi b : N) : bool := ((b <? lo) || (hi <? b))%N.

(** [utf8.DecodeRuneInString]: the first rune of [s] and its width. *)
Definition DecodeRuneInString (s : string) : N * nat :=
  match s with
  | EmptyString => (RuneError, 0)
  | String c0 _ =>
    let s0 := byte_of c0 in
    if (s0 <? 0x80)%N then (s0, 1)
    else
      match first s0 with
      | None => (RuneError, 1)
      | Some (sz, lo, hi) =>
        if String.length s <? sz then (RuneError, 1)
        else
          let s1 := byte_at s 1 in
          if outside lo hi s1 then (RuneError, 1)
          else if sz <=? 2
          then (N.lor (N.shiftl (N.land s0 0x1F) 6) (N.land s1 0x3F), 2)
          else
            let s2 := byte_at s 2 in
            if outside 0x80 0xBF s2 then (RuneError, 1)
            else if sz <=? 3
            then (N.lor (N.shiftl (N.land s0 0x0F) 12)
                    (N.lor (N.shiftl (N.land s1 0x3F) 6) (N.land s2 0x3F)), 3)
            else
              let s3 := byte_at s 3 in
              if outside 0x80 0xBF s3 then (RuneError, 1)
              else (N.lor (N.shiftl (N.land s0 0x07) 18)
                      (N.lor (N.shiftl (N.land s1 0x3F) 12)
                         (N.lor (N.shiftl (N.land s2 0x3F) 6)
                            (N.land s3 0x3F))), 4)
      end
  end.

(** A decoded rune together with the bytes it was decoded from. *)
Record token := Token { rune : N; raw : string }.

(** The runes of a string from left to right, as a [for range] loop sees
    them; each byte of an invalid sequence is a [RuneError] of width 1. *)
Fixpoint runes_from (fuel : nat) (s : string) : list token :=
  match fuel with
  | O => []
  | S fuel' =>
    match s with
    | EmptyString => []
    | _ =>
      let '(r, w) := DecodeRuneInString s in
      Token r (take_bytes w s) :: runes_from fuel' (drop_bytes w s)
    end
  end.

Definition runes (s : string) : list token := runes_from (String.length s) s.

Definition bytes (ts : list token) : string :=
  fold_right (fun t acc => raw t +:+ acc) "" ts.

End Utf8.

Module Unicode.

(** [unicode.IsSpace]: the Latin-1 spaces and the White_Space code points
    above Latin-1. *)
Definition IsSpace (r : N) : bool :=
  if (r <=? 0xFF)%N then
    ((r =? 9) || (r =? 10) || (r =? 11) || (r =? 12) || (r =? 13)
     || (r =? 32) || (r =? 0x85) || (r =? 0xA0))%N
  else
    ((r =? 0x1680) || ((0x2000 <=? r) && (r <=? 0x200A))
     || (r =? 0x2028) || (r =? 0x2029) || (r =? 0x202F)
     || (r =? 0x205F) || (r =? 0x3000))%N.

End Unicode.

Module Strings.

(** [strings.HasPrefix s prefix]. *)
Definition HasPrefix (s pre : string) : bool := String.prefix pre s.

(** [strings.Contains s substr]. *)
Fixpoint Contains (s substr : string) : bool :=
  String.prefix substr s
  || match s with
     | EmptyString => false
     | String _ s' => Contains s' substr
     end.

Fixpoint drop_spaces (ts : list Utf8.token) : list Utf8.token :=
  match ts with
  | t :: ts' => if Unicode.IsSpace (Utf8.rune t) then drop_spaces ts' else ts
  | [] => []
  end.

(** [strings.TrimSpace]: the string without leading and trailing runes
    that satisfy [unicode.IsSpace]. *)
Definition TrimSpace (s : string) : string :=
  Utf8.bytes (rev (drop_spaces (rev (drop_spaces (Utf8.runes s))))).

(** The scan behind [strings.Split] and [strings.SplitN] for a non-empty
    separator: [skip] counts the bytes of a separator still to be passed
    over, [cur] is the piece being read and [limit] the number of cuts
    still allowed ([None] for no limit). *)
Fixpoint split_scan (sep : string) (limit : option nat) (skip : nat)
         (cur s : string) : list string :=
  match s with
  | EmptyString => [cur]
  | String c s' =>
    match skip with
    | S k => split_scan sep limit k cur s'
    | O =>
      match limit with
      | Some O => split_scan sep limit 0 (cur +:+ String c "") s'
      | _ =>
        if String.prefix sep s
        then cur :: split_scan sep (option_map Nat.pred limit)
                      (String.length sep - 1) "" s'
        else split_scan sep limit 0 (cur +:+ String c "") s'
      end
    end
  end.

(** [strings.SplitN s sep n]. *)
Definition SplitN (s sep : string) (n : Z) : list string :=
  if (n =? 0)%Z then []
  else
    match sep with
    | EmptyString =>
      let pieces := map Utf8.raw (Utf8.runes s) in
      if (n <? 0)%Z || (Z.of_nat (length pieces) <=? n)%Z then pieces
      else firstn (Z.to_nat n - 1) pieces
           ++ [fold_right String.append "" (skipn (Z.to_nat n - 1) pieces)]
    | _ =>
      split_scan sep (if (n <? 0)%Z then None else Some (Z.to_nat n - 1))
        0 "" s
    end.

(** [strings.Split s sep]. *)
Definition Split (s sep : string) : list string := SplitN s sep (-1).

End Strings.

(** ** Errors

    A Go [error] is [option error]: [None] is [nil]. *)

Inductive numerr := ErrSyntax | ErrRange.

Inductive error :=
| EOF
  (** the sentinel [io.EOF] *)
| errorString (msg : string)
  (** [errors.New msg], and [fmt.Errorf] when all operands are strings *)
| NumError (func num : string) (err : numerr)
  (** [*strconv.NumError] *)
| External (msg : string)
  (** an error value made outside the client: by [os/exec], [os] or [io] *)
| Errorf_v (before : string) (cause : error) (after : string).
  (** [fmt.Errorf (before ++ "%v" ++ after) cause], the text after [%v]
      with its own operands already filled in *)

Module Strconv.

(** [strconv.Itoa]. *)
Definition Itoa (i : Z) : string := NilZero.string_of_int (Z.to_int i).

Definition is_digit (c : ascii) : bool :=
  ((48 <=? byte_of c) && (byte_of c <=? 57))%N.

(** The largest [uint64]. *)
Definition maxUint64 : Z := 18446744073709551615.

(** The value of a run of decimal digits as [strconv.ParseUint] reads it:
    [None], a syntax error, at the first byte that is no digit; once the
    value passes [maxUint64] the scan ends there, out of range, with
    [maxUint64], whatever follows. *)
Fixpoint digits_value (acc : Z) (s : string) : option Z :=
  match s with
  | EmptyString => Some acc
  | String c s' =>
    if is_digit c
    then
      let n := (10 * acc + Z.of_N (byte_of c - 48))%Z in
      if (maxUint64 <? n)%Z then Some maxUint64 else digits_value n s'
    else None
  end.

(** [strconv.ParseInt s 10 64], reporting its errors under the name
    [fn]: an optional sign, then decimal digits only; out of range the
    result is clamped and the error is [ErrRange]. *)
Definition parse_int (fn s : string) : Z * option error :=
  match s with
  | EmptyString => (0%Z, Some (NumError fn s ErrSyntax))
  | String c0 rest =>
    let neg := Ascii.eqb c0 "-" in
    let body := if Ascii.eqb c0 "+" || neg then rest else s in
    match body with
    | EmptyString => (0%Z, Some (NumError fn s ErrSyntax))
    | _ =>
      match digits_value 0 body with
      | None => (0%Z, Some (NumError fn s ErrSyntax))
      | Some un =>
        let cutoff := (2 ^ 63)%Z in
        if negb neg && (cutoff <=? un)%Z
        then ((cutoff - 1)%Z, Some (NumError fn s ErrRange))
        else if neg && (cutoff <? un)%Z
        then ((- cutoff)%Z, Some (NumError fn s ErrRange))
        else ((if neg then - un else un)%Z, None)
      end
    end
  end.

Definition ParseInt (s : string) : Z * option error := parse_int "ParseInt" s.

(** [strconv.Atoi], on a platform whose [int] has 64 bits. *)
Definition Atoi (s : string) : Z * option error := parse_int "Atoi" s.

End Strconv.

(** ** Regular expressions

    The two patterns of the client are sequences of character classes, some
    repeated, with one capture group.  [exec] is a backtracking matcher: it
    finds the match Go's [regexp] reports, the leftmost one and, at that
    start, the one a backtracking search meets first (repetitions greedy).
    The input is the rune sequence of the string, as in [regexp]. *)

Module Regexp.

Inductive regex :=
| Class (p : N -> bool)      (** one rune of a class *)
| Star (p : N -> bool)       (** [c*], greedy *)
| BeginText                  (** [^] *)
| EndText                    (** [$] *)
| Cat (a b : regex)
| Capture (a : regex).       (** the group [( )] number 1 *)

(** [c+] *)
Definition Plus (p : N -> bool) : regex := Cat (Class p) (Star p).

Definition digit (r : N) : bool := ((48 <=? r) && (r <=? 57))%N.
(** [.] without the [s] flag: any rune but a newline *)
Definition any_not_nl (r : N) : bool := negb (r =? 10)%N.
Definition rune_is (c : ascii) (r : N) : bool := (r =? byte_of c)%N.
Definition rune_is_not (c : ascii) (r : N) : bool := negb (r =? byte_of c)%N.

Section Exec.
Context {R : Type}.

(** [exec re inp pos cap k]: match [re] at the head of [inp], which
    starts [pos] runes into the text; [cap] holds the bounds of the
    group seen so far; [k] continues with what follows [re]. *)
Fixpoint exec (re : regex) (inp : list Utf8.token) (pos : nat)
         (cap : option (nat * nat))
         (k : list Utf8.token -> nat -> option (nat * nat) -> option R)
  : option R :=
  match re with
  | Class p =>
    match inp with
    | t :: inp' => if p (Utf8.rune t) then k inp' (S pos) cap else None
    | [] => None
    end
  | Star p =>
    (fix star (inp : list Utf8.token) (pos : nat) : option R :=
       match inp with
       | t :: inp' =>
         if p (Utf8.rune t)
         then match star inp' (S pos) with
              | Some r => Some r
              | None => k inp pos cap
              end
         else k inp pos cap
       | [] => k inp pos cap
       end) inp pos
  | BeginText => if pos =? 0 then k inp pos cap else None
  | EndText => match inp with [] => k inp pos cap | _ => None end
  | Cat a b => exec a inp pos cap (fun inp' pos' cap' => exec b inp' pos' cap' k)
  | Capture a => exec a inp pos cap (fun inp' pos' _ => k inp' pos' (Some (pos, pos')))
  end.
End Exec.

(** A match that starts [pos] runes into the text: where it ends and the
    bounds of the group. *)
Definition match_at (re : regex) (inp : list Utf8.token) (pos : nat)
  : option (nat * option (nat * nat)) :=
  exec re inp pos None (fun _ pos' cap => Some (pos', cap)).

(** The leftmost match: start, end and group. *)
Fixpoint search (re : regex) (inp : list Utf8.token) (pos : nat)
  : option (nat * nat * option (nat * nat)) :=
  match match_at re inp pos with
  | Some (e, cap) => Some (pos, e, cap)
  | None =>
    match inp with
    | [] => None
    | _ :: inp' => search re inp' (S pos)
    end
  end.

Definition slice (ts : list Utf8.token) (from to : nat) : string :=
  Utf8.bytes (firstn (to - from) (skipn from ts)).

(** [Regexp.FindStringSubmatch]: [[]] for no match ([nil] in Go), else
    the text of the match followed by the text of the group. *)
Definition FindStringSubmatch (re : regex) (s : string) : list string :=
  let ts := Utf8.runes s in
  match search re ts 0 with
  | None => []
  | Some (b, e, cap) =>
    [slice ts b e;
     match cap with Some (cb, ce) => slice ts cb ce | None => "" end]
  end.

End Regexp.

(** ** Semantic versions (github.com/coreos/go-semver) *)

Module Semver.

Record Version := {
  Major : Z;
  Minor : Z;
  Patch : Z;
  PreRelease : string;
  Metadata : string
}.

(** [splitOff]: cut [input] at the first [delim]; the text before it and
    the text after it ([""] when there is no [delim]). *)
Definition splitOff (input delim : string) : string * string :=
  match Strings.SplitN input delim 2 with
  | [before; after] => (before, after)
  | _ => (input, "")
  end.

(** [semver.NewVersion]: metadata after [+], pre-release after [-], then
    exactly three dot-separated integers.  (Later releases of the library
    also check the characters of the pre-release and metadata texts, after
    the count of the dotted parts.)  Go hands back a version and a nil
    error, or nil and an error: a sum here. *)
Definition NewVersion (version : string) : Version + error :=
  let '(version, metadata) := splitOff version "+" in
  let '(version, preRelease) := splitOff version "-" in
  match Strings.SplitN version "." 3 with
  | [p0; p1; p2] =>
    match Strconv.ParseInt p0, Strconv.ParseInt p1, Strconv.ParseInt p2 with
    | (_, Some err), _, _ => inr err
    | _, (_, Some err), _ => inr err
    | _, _, (_, Some err) => inr err
    | (major, None), (minor, None), (patch, None) =>
      inl {| Major := major; Minor := minor; Patch := patch;
             PreRelease := preRelease; Metadata := metadata |}
    end
  | _ => inr (errorString (version +:+ " is not in dotted-tri format"))
  end.

(** [semver.New]: [NewVersion] for a text known to be a version; Go panics
    on any other, here the zero version stands for that. *)
Definition New (version : string) : Version :=
  match NewVersion version with
  | inl v => v
  | inr _ => {| Major := 0; Minor := 0; Patch := 0;
                PreRelease := ""; Metadata := "" |}
  end.

Definition Slice (v : Version) : list Z := [Major v; Minor v; Patch v].

Fixpoint recursiveCompare (versionA versionB : list Z) : Z :=
  match versionA, versionB with
  | a :: restA, b :: restB =>
    if (a >? b)%Z then 1%Z
    else if (a <? b)%Z then (-1)%Z
    else recursiveCompare restA restB
  | _, _ => 0%Z
  end.

Definition is_int (s : string) : bool :=
  match Strconv.Atoi s with (_, None) => true | _ => false end.

Fixpoint recursivePreReleaseCompare (versionA versionB : list string) : Z :=
  match versionA, versionB with
  | [], [] => 0%Z
  | [], _ :: _ => (-1)%Z
  | _ :: _, [] => 1%Z
  | a :: restA, b :: restB =>
    let aI := fst (Strconv.Atoi a) in
    let bI := fst (Strconv.Atoi b) in
    if is_int a && negb (is_int b) then (-1)%Z
    else if negb (is_int a) && is_int b then 1%Z
    else if is_int a && is_int b && (aI >? bI)%Z then 1%Z
    else if is_int a && is_int b && (aI <? bI)%Z then (-1)%Z
    else if String.ltb b a then 1%Z
    else if String.ltb a b then (-1)%Z
    else recursivePreReleaseCompare restA restB
  end.

Definition preReleaseCompare (versionA versionB : Version) : Z :=
  let a := PreRelease versionA in
  let b := PreRelease versionB in
  if (String.length a =? 0) && (0 <? String.length b) then 1%Z
  else if (String.length b =? 0) && (0 <? String.length a) then (-1)%Z
  else recursivePreReleaseCompare (Strings.Split a ".") (Strings.Split b ".").

Definition Compare (v versionB : Version) : Z :=
  let cmp := recursiveCompare (Slice v) (Slice versionB) in
  if negb (cmp =? 0)%Z then cmp else preReleaseCompare v versionB.

Definition LessThan (v versionB : Version) : bool :=
  (Compare v versionB <? 0)%Z.

End Semver.

(** ** Buffered line reading (io, bufio)

    What the decoders read is a stream: the bytes it still delivers and the
    error that ends it, [EOF] for a buffer read to its end. *)

Module Bufio.

(** [err == io.EOF] *)
Definition is_EOF (e : error) : bool :=
  match e with
  | EOF => true
  | _ => false
  end.

Record Reader := { data : string; final : error }.

(** An in-memory [*bytes.Buffer] seen as an [io.Reader]. *)
Definition NewBuffer (s : string) : Reader := {| data := s; final := EOF |}.

(** The text up to and including the first [delim], and the text after it. *)
Fixpoint cut (delim : ascii) (s : string) : option (string * string) :=
  match s with
  | EmptyString => None
  | String c s' =>
    if Ascii.eqb c delim then Some (String c "", s')
    else match cut delim s' with
         | Some (line, rest) => Some (String c line, rest)
         | None => None
         end
  end.

(** [reader.ReadString delim]: the text up to and including the first
    [delim]; when the stream ends before a [delim], what was read and the
    error that ended it. *)
Definition ReadString (delim : ascii) (r : Reader)
  : string * option error * Reader :=
  match cut delim (data r) with
  | Some (line, rest) => (line, None, {| data := rest; final := final r |})
  | None => (data r, Some (final r), {| data := ""; final := final r |})
  end.

End Bufio.

(** ** The outside world

    The client launches processes and touches the file system.  A
    computation of the client is a tree of such requests: each node names
    the request and continues with the answer of the world. *)

(** What [exec.Cmd.Run] leaves behind: the two captured streams and its
    error. *)
Record RunResult := {
  stdout : string;
  stderr : string;
  run_err : option error
}.

(** An [*os.File]; the client only ever asks for its name. *)
Record File := { Name : string }.

(** [os.FileMode], 32 bits: type bits above, permission bits below. *)
Definition FileMode := N.

(** The answer of [os.Stat]: the mode of the file, or an error together
    with what [os.IsNotExist] says of it. *)
Inductive StatResult :=
| StatInfo (mode : FileMode)
| StatFail (err : error) (not_exist : bool).

Inductive IO (A : Type) : Type :=
| Ret (a : A)
| Run (cmd : string) (env : option (list string)) (arg : list string)
      (k : RunResult -> IO A)
  (** [exec.Command cmd arg...] run with [Env = env] ([None] is [nil]) *)
| Stat (name : string) (k : StatResult -> IO A)
| TempFile (dir pattern : string) (k : File + error -> IO A)
| WriteString (f : File) (s : string) (k : option error -> IO A)
| Chmod (f : File) (mode : FileMode) (k : option error -> IO A)
| Remove (name : string) (k : option error -> IO A).

Arguments Ret {A} a.
Arguments Run {A} cmd env arg k.
Arguments Stat {A} name k.
Arguments TempFile {A} dir pattern k.
Arguments WriteString {A} f s k.
Arguments Chmod {A} f mode k.
Arguments Remove {A} name k.

Fixpoint bind {A B : Type} (m : IO A) (f : A -> IO B) : IO B :=
  match m with
  | Ret a => f a
  | Run cmd env arg k => Run cmd env arg (fun r => bind (k r) f)
  | Stat name k => Stat name (fun r => bind (k r) f)
  | TempFile dir pattern k => TempFile dir pattern (fun r => bind (k r) f)
  | WriteString fl s k => WriteString fl s (fun r => bind (k r) f)
  | Chmod fl mode k => Chmod fl mode (fun r => bind (k r) f)
  | Remove name k => Remove name (fun r => bind (k r) f)
  end.

Declare Scope io_scope.
Delimit Scope io_scope with io.
Notation "x <- m ;; f" := (bind m (fun x => f))
  (at level 100, m at next level, right associativity) : io_scope.

(** The requests a computation made, in order, with the answers that a
    later claim refers to. *)
Inductive event :=
| EvRun (cmd : string) (env : option (list string)) (arg : list string)
| EvStat (name : string)
| EvTempFile (dir pattern : string) (res : File + error)
| EvWriteString (f : File) (s : string)
| EvChmod (f : File) (mode : FileMode)
| EvRemove (name : string).

(** A world with states [W] answers each request and moves on. *)
Record World (W : Type) := {
  on_run : W -> string -> option (list string) -> list string -> RunResult * W;
  on_stat : W -> string -> StatResult * W;
  on_tempfile : W -> string -> string -> (File + error) * W;
  on_write : W -> File -> string -> option error * W;
  on_chmod : W -> File -> FileMode -> option error * W;
  on_remove : W -> string -> option error * W
}.

Arguments on_run {W}.
Arguments on_stat {W}.
Arguments on_tempfile {W}.
Arguments on_write {W}.
Arguments on_chmod {W}.
Arguments on_remove {W}.

(** Running a computation in a world: its result, the final state of the
    world and the requests made. *)
Fixpoint perform {W A : Type} (h : World W) (w : W) (m : IO A)
  : A * W * list event :=
  match m with
  | Ret a => (a, w, [])
  | Run cmd env arg k =>
    let '(r, w1) := on_run h w cmd env arg in
    let '(a, w2, evs) := perform h w1 (k r) in
    (a, w2, EvRun cmd env arg :: evs)
  | Stat name k =>
    let '(r, w1) := on_stat h w name in
    let '(a, w2, evs) := perform h w1 (k r) in
    (a, w2, EvStat name :: evs)
  | TempFile dir pattern k =>
    let '(r, w1) := on_tempfile h w dir pattern in
    let '(a, w2, evs) := perform h w1 (k r) in
    (a, w2, EvTempFile dir pattern r :: evs)
  | WriteString f s k =>
    let '(r, w1) := on_write h w f s in
    let '(a, w2, evs) := perform h w1 (k r) in
    (a, w2, EvWriteString f s :: evs)
  | Chmod f mode k =>
    let '(r, w1) := on_chmod h w f mode in
    let '(a, w2, evs) := perform h w1 (k r) in
    (a, w2, EvChmod f mode :: evs)
  | Remove name k =>
    let '(r, w1) := on_remove h w name in
    let '(a, w2, evs) := perform h w1 (k r) in
    (a, w2, EvRemove name :: evs)
  end.

Definition events {W A : Type} (h : World W) (w : W) (m : IO A) : list event :=
  snd (perform h w m).

Definition result {W A : Type} (h : World W) (w : W) (m : IO A) : A :=
  fst (fst (perform h w m)).

Definition is_run (e : event) : bool :=
  match e with EvRun _ _ _ => true | _ => false end.

(** The permission bits [0600], owner read and write. *)
Definition mode_0600 : FileMode := 384%N.

(** [os.ModeDir] and [FileMode.IsDir]. *)
Definition ModeDir : FileMode := N.shiftl 1 31.

Definition IsDir (m : FileMode) : bool := negb (N.land m ModeDir =? 0)%N.

(** [FileMode.String]: the letters of the type bits that are set, or [-]
    for none, then the nine permission bits. *)
Fixpoint mode_type_letters (letters : string) (i : nat) (m : FileMode) : string :=
  match letters with
  | EmptyString => ""
  | String c rest =>
    if N.testbit m (N.of_nat (31 - i))
    then String c (mode_type_letters rest (S i) m)
    else mode_type_letters rest (S i) m
  end.

Fixpoint mode_perm_letters (letters : string) (i : nat) (m : FileMode) : string :=
  match letters with
  | EmptyString => ""
  | String c rest =>
    String (if N.testbit m (N.of_nat (8 - i)) then c else "-"%char)
           (mode_perm_letters rest (S i) m)
  end.

Definition FileMode_String (m : FileMode) : string :=
  let ty := mode_type_letters "dalTLDpSugct?" 0 m in
  (if String.eqb ty "" then "-" else ty)
  +:+ mode_perm_letters "rwxrwxrwx" 0 m.

(** * The client *)

(** ** Constants and tables *)

Definition PGPool : string := "pgpool".

Definition PCPNodeCount : string := "/usr/sbin/pcp_node_count".
Definition PCPNodeInfo : string := "/usr/sbin/pcp_node_info".
Definition PCPProcCount : string := "/usr/sbin/pcp_proc_count".
Definition PCPProcInfo : string := "/usr/sbin/pcp_proc_info".
Definition PCPWatchdogInfo : string := "/usr/sbin/pcp_watchdog_info".

Definition NodeStatusInitialization : string := "Initialization".
Definition NodeStatusUP1 : string := "Node is up. No connections yet".
Definition NodeStatusUP2 : string := "Node is up. Connections are pooled".
Definition NodeStatusDown : string := "Node is down".
Definition NodeStatusUnknown : string := "Unknown node status".

Definition QuorumStateUnknown : Z := -3.
Definition QuorumStateNoMasterNode : Z := -2.
Definition QuorumStateAbsent : Z := -1.
Definition QuorumStateOnEdge : Z := 0.
Definition QuorumStateExist : Z := 1.

(** The pattern [^[^:]+: ] followed by the group of [.*] and by [$]: from
    the start of the text one or more runes other than a colon, a colon, a
    space, then in the group every rune up to the end of the text, none of
    them a newline. *)
Definition PCPValueRegExp : Regexp.regex :=
  Regexp.Cat Regexp.BeginText
    (Regexp.Cat (Regexp.Plus (Regexp.rune_is_not ":"))
       (Regexp.Cat (Regexp.Class (Regexp.rune_is ":"))
          (Regexp.Cat (Regexp.Class (Regexp.rune_is " "))
             (Regexp.Cat (Regexp.Capture (Regexp.Star Regexp.any_not_nl))
                Regexp.EndText)))).

(** The pattern [[0-9]+.[0-9]+.[0-9]+], in a group.  The two dots are not
    escaped in the source: each stands for any rune but a newline. *)
Definition PGPoolVersionRegExp : Regexp.regex :=
  Regexp.Capture
    (Regexp.Cat (Regexp.Plus Regexp.digit)
       (Regexp.Cat (Regexp.Class Regexp.any_not_nl)
          (Regexp.Cat (Regexp.Plus Regexp.digit)
             (Regexp.Cat (Regexp.Class Regexp.any_not_nl)
                (Regexp.Plus Regexp.digit))))).

Definition PGPoolPCPPassFileSince : Semver.Version := Semver.New "3.5.0".

Definition nodeStatusToString : gmap Z string :=
  list_to_map [(0%Z, NodeStatusInitialization);
               (1%Z, NodeStatusUP1);
               (2%Z, NodeStatusUP2);
               (3%Z, NodeStatusDown)].

Definition quorumStateToInt : gmap string Z :=
  list_to_map [("UNKNOWN", QuorumStateUnknown);
               ("NO MASTER NODE", QuorumStateNoMasterNode);
               ("QUORUM ABSENT", QuorumStateAbsent);
               ("QUORUM IS ON THE EDGE", QuorumStateOnEdge);
               ("QUORUM EXIST", QuorumStateExist)].

(** ** Options and Client *)

Record Options := {
  PassFile : string;
  Hostname : string;
  Port : Z;
  Username : string;
  Password : string;
  Timeout : Z
}.

Record Client := {
  options : Options;
  version : option Semver.Version;
  pcpPassFileSupport : bool;
  pcpPassFile : string;
  pcpPassFileUser : bool;
  pcpPassTempFile : option File
}.

Definition set_version (v : Semver.Version) (c : Client) : Client :=
  {| options := options c; version := Some v;
     pcpPassFileSupport := pcpPassFileSupport c;
     pcpPassFile := pcpPassFile c; pcpPassFileUser := pcpPassFileUser c;
     pcpPassTempFile := pcpPassTempFile c |}.

Definition set_pcpPassFileSupport (b : bool) (c : Client) : Client :=
  {| options := options c; version := version c;
     pcpPassFileSupport := b;
     pcpPassFile := pcpPassFile c; pcpPassFileUser := pcpPassFileUser c;
     pcpPassTempFile := pcpPassTempFile c |}.

Definition set_pcpPassFile (name : string) (c : Client) : Client :=
  {| options := options c; version := version c;
     pcpPassFileSupport := pcpPassFileSupport c;
     pcpPassFile := name; pcpPassFileUser := pcpPassFileUser c;
     pcpPassTempFile := pcpPassTempFile c |}.

Definition set_pcpPassFileUser (b : bool) (c : Client) : Client :=
  {| options := options c; version := version c;
     pcpPassFileSupport := pcpPassFileSupport c;
     pcpPassFile := pcpPassFile c; pcpPassFileUser := b;
     pcpPassTempFile := pcpPassTempFile c |}.

Definition set_pcpPassTempFile (f : File) (c : Client) : Client :=
  {| options := options c; version := version c;
     pcpPassFileSupport := pcpPassFileSupport c;
     pcpPassFile := pcpPassFile c; pcpPassFileUser := pcpPassFileUser c;
     pcpPassTempFile := Some f |}.

Open Scope io_scope.

(** [execCommand]: run [cmd] and hand back both captured streams with the
    error of the run. *)
Definition execCommand (c : Client) (cmd : string) (env : option (list string))
           (arg : list string) : IO (string * string * option error) :=
  Run cmd env arg (fun r =>
    match run_err r with
    | Some err => Ret (stdout r, stderr r, Some err)
    | None => Ret (stdout r, stderr r, None)
    end).

Definition ExtractVersion (c : Client) (line : string) : string :=
  let valueArr := Regexp.FindStringSubmatch PGPoolVersionRegExp line in
  if 0 <? length valueArr then nth 1 valueArr "" else "".

(** [Version]: the cached version, or the one the pooler prints.  A method
    on the pointer, so the client comes back with the result; the result
    is a version and a nil error, or nil and an error. *)
Definition Version (c : Client) : IO (Client * (Semver.Version + error)) :=
  match version c with
  | Some v => Ret (c, inl v)
  | None =>
    out <- execCommand c PGPool (Some []) ["--version"] ;;
    let '(_, bytesBuffer, err) := out in
    match err with
    | Some err =>
      Ret (c, inr (Errorf_v "error getting version information: " err ""))
    | None =>
      let resultString := Strings.TrimSpace bytesBuffer in
      if String.length resultString =? 0
      then Ret (c, inr (errorString "pgpool returns empty version information"))
      else
        let version := ExtractVersion c resultString in
        if String.length version =? 0
        then Ret (c, inr (errorString
               ("can't extract pgpool version from string: " +:+ resultString)))
        else
          match Semver.NewVersion version with
          | inr err => Ret (c, inr err)
          | inl pgpoolVersion =>
            Ret (set_version pgpoolVersion c, inl pgpoolVersion)
          end
    end
  end.

Definition IsSupportPCPPassFile (c : Client) : IO (Client * (bool * option error)) :=
  r <- Version c ;;
  let '(c, res) := r in
  match res with
  | inr err => Ret (c, (false, Some err))
  | inl version =>
    if Semver.LessThan version PGPoolPCPPassFileSince
    then Ret (c, (false, None))
    else Ret (c, (true, None))
  end.

Definition createPCPTempFile (c : Client) : IO (Client * option error) :=
  if pcpPassFileUser c then Ret (c, None)
  else
    TempFile "" "pgpool2" (fun r =>
      match r with
      | inr err => Ret (c, Some err)
      | inl f =>
        WriteString f
          (Hostname (options c) +:+ ":" +:+ Strconv.Itoa (Port (options c))
           +:+ ":" +:+ Username (options c) +:+ ":" +:+ Password (options c))
          (fun err =>
             match err with
             | Some err => Ret (c, Some err)
             | None =>
               Chmod f mode_0600 (fun err =>
                 match err with
                 | Some err => Ret (c, Some err)
                 | None =>
                   Ret (set_pcpPassFile (Name f) (set_pcpPassTempFile f c), None)
                 end)
             end)
      end).

Definition Clean (c : Client) : IO (option error) :=
  if pcpPassFileUser c then Ret None
  else
    match pcpPassTempFile c with
    | None => Ret None
    | Some f => Remove (Name f) (fun err => Ret err)
    end.

Definition Validate (c : Client) : IO (Client * option error) :=
  if String.length (Hostname (options c)) =? 0
  then Ret (c, Some (errorString "PCP hostname must be specified"))
  else if String.length (Username (options c)) =? 0
  then Ret (c, Some (errorString "PCP username must be specified"))
  else if (Port (options c) <=? 0)%Z
  then Ret (c, Some (errorString "PCP port must be greater than zero"))
  else if negb (String.length (pcpPassFile c) =? 0)
  then
    Stat (pcpPassFile c) (fun r =>
      match r with
      | StatFail err true =>
        Ret (c, Some (errorString ("pcppass " +:+ pcpPassFile c +:+ " does not exist")))
      | StatFail err false =>
        Ret (c, Some (Errorf_v "cannot retrieve file mode: " err ""))
      | StatInfo mode =>
        if IsDir mode
        then Ret (c, Some (errorString "pcppass must be a file"))
        else if negb (mode =? mode_0600)%N
        then Ret (c, Some (errorString
               ("unexpected file mode for '" +:+ pcpPassFile c +:+ "': "
                +:+ FileMode_String mode)))
        else Ret (set_pcpPassFileUser true c, None)
      end)
  else if String.length (Password (options c)) =? 0
  then Ret (c, Some (errorString
         "PCP password or pcppass file (pgpool-II 3.5 and above) must be specified"))
  else Ret (c, None).

(** [&Client{options: options}] *)
Definition emptyClient (options : Options) : Client :=
  {| options := options; version := None;
     pcpPassFileSupport := false; pcpPassFile := "";
     pcpPassFileUser := false; pcpPassTempFile := None |}.

(** [NewClient] hands back a client and a nil error, or nil and an error. *)
Definition NewClient (options : Options) : IO (Client + error) :=
  let client := emptyClient options in
  r <- IsSupportPCPPassFile client ;;
  let '(client, (ok, err)) := r in
  match err with
  | Some err => Ret (inr err)
  | None =>
    let client :=
      if negb (String.length (PassFile options) =? 0)
      then set_pcpPassFileUser true (set_pcpPassFile (PassFile options) client)
      else client in
    r <- Validate client ;;
    let '(client, err) := r in
    match err with
    | Some err => Ret (inr err)
    | None =>
      if ok then
        let client := set_pcpPassFileSupport true client in
        r <- createPCPTempFile client ;;
        let '(client, err) := r in
        match err with
        | Some err => Ret (inr err)
        | None => Ret (inl client)
        end
      else Ret (inl client)
    end
  end.

(** ** Running a PCP command *)

(** The argument vector of the legacy invocation, the [else] branch of
    [execPCPCommand]: [global options] timeout hostname port username
    password [command arguments]. *)
Definition positionalArgs (c : Client) (arg : list string) : list string :=
  let argResult :=
    fold_left (fun argResult ar =>
                 if Strings.HasPrefix ar "-" then argResult ++ [ar] else argResult)
              arg [] in
  let argResult :=
    argResult ++ [Strconv.Itoa (Timeout (options c));
                  Hostname (options c);
                  Strconv.Itoa (Port (options c));
                  Username (options c);
                  Password (options c)] in
  fold_left (fun argResult ar =>
               if negb (Strings.HasPrefix ar "-") then argResult ++ [ar] else argResult)
            arg argResult.

(** The environment and the argument vector [execPCPCommand] launches a
    command with: the credentials file named in the environment when the
    pooler supports it, the legacy positional arguments otherwise. *)
Definition execPCPCommand_args (c : Client) (arg : list string)
  : option (list string) * list string :=
  if pcpPassFileSupport c then
    let argCommon :=
      ["--username=" +:+ Username (options c);
       "--host=" +:+ Hostname (options c);
       "--port=" +:+ Strconv.Itoa (Port (options c));
       "--no-password"] in
    (Some ["PCPPASSFILE=" +:+ pcpPassFile c], argCommon ++ arg)
  else (None, positionalArgs c arg).

Definition execPCPCommand (c : Client) (cmd : string) (arg : list string)
  : IO (string * option error) :=
  let '(env, argResult) := execPCPCommand_args c arg in
  out <- execCommand c cmd env argResult ;;
  let '(stdOut, _, err) := out in
  match err with
  | Some err =>
    Ret (stdOut, Some (Errorf_v "" err (" (" +:+ Strings.TrimSpace stdOut +:+ ")")))
  | None => Ret (stdOut, None)
  end.

(** [ioutil.ReadAll] of the buffer gives its content and no error. *)
Definition ExecNodeCount (c : Client) : IO (Z * option error) :=
  r <- execPCPCommand c PCPNodeCount [] ;;
  let '(bytesBuffer, err) := r in
  match err with
  | Some err => Ret (0%Z, Some err)
  | None =>
    let resultString := Strings.TrimSpace bytesBuffer in
    if String.length resultString =? 0 then Ret (0%Z, None)
    else
      match Strconv.Atoi resultString with
      | (_, Some err) => Ret (0%Z, Some err)
      | (resultInt, None) => Ret (resultInt, None)
      end
  end.

(** ** Decoders *)

Definition NodeStatusCodeToString (statusID : Z) : string :=
  match nodeStatusToString !! statusID with
  | Some status => status
  | None => NodeStatusUnknown
  end.

Definition ExtractValueFromPCPString (line : string) : string :=
  let valueArr := Regexp.FindStringSubmatch PCPValueRegExp line in
  if 0 <? length valueArr then nth 1 valueArr "" else "".

Definition QuorumStateToCode (state : string) : Z :=
  match quorumStateToInt !! state with
  | Some code => code
  | None => QuorumStateUnknown
  end.

(** What one pass through a loop body leaves: the state to go on with in
    the body, or the state at a [continue]. *)
Inductive flow (A : Type) : Type :=
| Next (a : A)
| Continue (a : A).

Arguments Next {A} a.
Arguments Continue {A} a.

Definition and_then {A : Type} (e : flow A) (k : A -> A) : A :=
  match e with
  | Next a => k a
  | Continue a => a
  end.

Definition inspect {A : Type} (a : A) : {b : A | a = b} := exist _ a eq_refl.

Module Node.

Record NodeInfo := {
  Hostname : string;
  Port : Z;
  StatusCode : Z;
  Status : string;
  Weight : spec_float;
  Role : string
}.

(** [var ni NodeInfo] *)
Definition zero : NodeInfo :=
  {| Hostname := ""; Port := 0; StatusCode := 0; Status := "";
     Weight := S754_zero false; Role := "" |}.

Definition set_Hostname (x : string) (ni : NodeInfo) : NodeInfo :=
  {| Hostname := x; Port := Port ni; StatusCode := StatusCode ni;
     Status := Status ni; Weight := Weight ni; Role := Role ni |}.

Definition set_Port (x : Z) (ni : NodeInfo) : NodeInfo :=
  {| Hostname := Hostname ni; Port := x; StatusCode := StatusCode ni;
     Status := Status ni; Weight := Weight ni; Role := Role ni |}.

Definition set_Status (code : Z) (x : string) (ni : NodeInfo) : NodeInfo :=
  {| Hostname := Hostname ni; Port := Port ni; StatusCode := code;
     Status := x; Weight := Weight ni; Role := Role ni |}.

Definition set_Weight (x : spec_float) (ni : NodeInfo) : NodeInfo :=
  {| Hostname := Hostname ni; Port := Port ni; StatusCode := StatusCode ni;
     Status := Status ni; Weight := x; Role := Role ni |}.

Definition set_Role (x : string) (ni : NodeInfo) : NodeInfo :=
  {| Hostname := Hostname ni; Port := Port ni; StatusCode := StatusCode ni;
     Status := Status ni; Weight := Weight ni; Role := x |}.

End Node.

Module Watchdog.

Record WatchdogInfo := {
  TotalNodes : Z;
  RemoteNodes : Z;
  QuorumState : string;
  QuorumStateCode : Z;
  AliveRemoteNodes : Z;
  VIP : bool
}.

(** [var wi WatchdogInfo] *)
Definition zero : WatchdogInfo :=
  {| TotalNodes := 0; RemoteNodes := 0; QuorumState := "";
     QuorumStateCode := 0; AliveRemoteNodes := 0; VIP := false |}.

Definition set_TotalNodes (x : Z) (wi : WatchdogInfo) : WatchdogInfo :=
  {| TotalNodes := x; RemoteNodes := RemoteNodes wi;
     QuorumState := QuorumState wi; QuorumStateCode := QuorumStateCode wi;
     AliveRemoteNodes := AliveRemoteNodes wi; VIP := VIP wi |}.

Definition set_RemoteNodes (x : Z) (wi : WatchdogInfo) : WatchdogInfo :=
  {| TotalNodes := TotalNodes wi; RemoteNodes := x;
     QuorumState := QuorumState wi; QuorumStateCode := QuorumStateCode wi;
     AliveRemoteNodes := AliveRemoteNodes wi; VIP := VIP wi |}.

Definition set_QuorumState (x : string) (code : Z) (wi : WatchdogInfo)
  : WatchdogInfo :=
  {| TotalNodes := TotalNodes wi; RemoteNodes := RemoteNodes wi;
     QuorumState := x; QuorumStateCode := code;
     AliveRemoteNodes := AliveRemoteNodes wi; VIP := VIP wi |}.

Definition set_AliveRemoteNodes (x : Z) (wi : WatchdogInfo) : WatchdogInfo :=
  {| TotalNodes := TotalNodes wi; RemoteNodes := RemoteNodes wi;
     QuorumState := QuorumState wi; QuorumStateCode := QuorumStateCode wi;
     AliveRemoteNodes := x; VIP := VIP wi |}.

Definition set_VIP (x : bool) (wi : WatchdogInfo) : WatchdogInfo :=
  {| TotalNodes := TotalNodes wi; RemoteNodes := RemoteNodes wi;
     QuorumState := QuorumState wi; QuorumStateCode := QuorumStateCode wi;
     AliveRemoteNodes := AliveRemoteNodes wi; VIP := x |}.

End Watchdog.

Module Proc.

Record ProcInfo := {
  Database : string;
  Username : string;
  Connected : bool
}.

End Proc.

(** A successful [ReadString] leaves a shorter stream: the measure that
    ends the reading loops. *)
Ltac read_shortens Heq :=
  unfold Bufio.ReadString in Heq;
  match type of Heq with
  | context [Bufio.cut ?d (Bufio.data ?r)] =>
    let E := fresh "E" in
    let l := fresh "l" in
    let rest := fresh "rest" in
    let s := fresh "s" in
    let c := fresh "c" in
    let IH := fresh "IH" in
    destruct (Bufio.cut d (Bufio.data r)) as [[l rest]|] eqn:E;
    [| discriminate Heq];
    injection Heq as _ <-; simpl;
    clear - E;
    generalize dependent (Bufio.data r); intros s; revert l rest;
    induction s as [|c s IH]; simpl; intros l rest E; [discriminate E|];
    destruct (Ascii.eqb c d); [injection E as _ <-; lia|];
    let E2 := fresh "E" in
    let l2 := fresh "l" in
    let r2 := fresh "rest" in
    destruct (Bufio.cut d s) as [[l2 r2]|] eqn:E2; [| discriminate E];
    injection E as _ <-; specialize (IH _ _ eq_refl); lia
  end.

Section Decoders.

(** [strconv.ParseFloat s 64]: the client only depends on whether it
    succeeds and, if so, on the number it gives. *)
Variable ParseFloat : string -> spec_float * option error.

(** The body of the loop of [NodeInfoUnmarshal], from the line just read. *)
Definition NodeInfo_line (ni : Node.NodeInfo) (line : string) : Node.NodeInfo :=
  let line := Strings.TrimSpace line in
  let ni :=
    if Strings.Contains line "Hostname"
    then Node.set_Hostname (ExtractValueFromPCPString line) ni
    else ni in
  and_then
    (if Strings.Contains line "Port" then
       let portRaw := ExtractValueFromPCPString line in
       match Strconv.Atoi portRaw with
       | (_, Some _) => Continue ni
       | (portInt, None) => Next (Node.set_Port portInt ni)
       end
     else Next ni)
    (fun ni =>
  and_then
    (if Strings.Contains line "Status" then
       let statusRaw := ExtractValueFromPCPString line in
       match Strconv.Atoi statusRaw with
       | (_, Some _) => Continue ni
       | (statusInt, None) =>
         Next (Node.set_Status statusInt (NodeStatusCodeToString statusInt) ni)
       end
     else Next ni)
    (fun ni =>
  and_then
    (if Strings.Contains line "Weight" then
       let weightRaw := ExtractValueFromPCPString line in
       match ParseFloat weightRaw with
       | (_, Some _) => Continue ni
       | (weightFloat, None) => Next (Node.set_Weight weightFloat ni)
       end
     else Next ni)
    (fun ni =>
  if Strings.Contains line "Role"
  then Node.set_Role (ExtractValueFromPCPString line) ni
  else ni))).

Equations? NodeInfoUnmarshal_loop (ni : Node.NodeInfo) (reader : Bufio.Reader)
  : Node.NodeInfo * option error
  by wf (String.length (Bufio.data reader)) lt :=
  NodeInfoUnmarshal_loop ni reader
    with inspect (Bufio.ReadString newline reader) := {
    | exist _ (line, Some err, _) _ =>
      if Bufio.is_EOF err then (ni, None) else (ni, Some err)
    | exist _ (line, None, reader') Heq =>
      NodeInfoUnmarshal_loop (NodeInfo_line ni line) reader' }.
Proof. read_shortens Heq. Qed.

Definition NodeInfoUnmarshal (cmdOutBuff : Bufio.Reader)
  : Node.NodeInfo * option error :=
  NodeInfoUnmarshal_loop Node.zero cmdOutBuff.

(** The body of the loop of [WatchdogInfoUnmarshal]. *)
Definition WatchdogInfo_line (wi : Watchdog.WatchdogInfo) (line : string)
  : Watchdog.WatchdogInfo :=
  let line := Strings.TrimSpace line in
  and_then
    (if Strings.Contains line "Total Nodes" then
       let totalNodesRaw := ExtractValueFromPCPString line in
       match Strconv.Atoi totalNodesRaw with
       | (_, Some _) => Continue wi
       | (totalNodesInt, None) => Next (Watchdog.set_TotalNodes totalNodesInt wi)
       end
     else Next wi)
    (fun wi =>
  and_then
    (if Strings.Contains line "Remote Nodes" then
       let remoteNodesRaw := ExtractValueFromPCPString line in
       match Strconv.Atoi remoteNodesRaw with
       | (_, Some _) => Continue wi
       | (remoteNodesInt, None) => Next (Watchdog.set_RemoteNodes remoteNodesInt wi)
       end
     else Next wi)
    (fun wi =>
  let wi :=
    if Strings.Contains line "Quorum state"
    then
      let state := ExtractValueFromPCPString line in
      Watchdog.set_QuorumState state (QuorumStateToCode state) wi
    else wi in
  and_then
    (if Strings.Contains line "Alive Remote Nodes" then
       let aliveRemoteNodesRaw := ExtractValueFromPCPString line in
       match Strconv.Atoi aliveRemoteNodesRaw with
       | (_, Some _) => Continue wi
       | (aliveRemoteNodesInt, None) =>
         Next (Watchdog.set_AliveRemoteNodes aliveRemoteNodesInt wi)
       end
     else Next wi)
    (fun wi =>
  if Strings.Contains line "VIP up on local node" then
    let vipRaw := ExtractValueFromPCPString line in
    if String.eqb vipRaw "YES" then Watchdog.set_VIP true wi else wi
  else wi))).

Equations? WatchdogInfoUnmarshal_loop (wi : Watchdog.WatchdogInfo)
  (reader : Bufio.Reader) : Watchdog.WatchdogInfo * option error
  by wf (String.length (Bufio.data reader)) lt :=
  WatchdogInfoUnmarshal_loop wi reader
    with inspect (Bufio.ReadString newline reader) := {
    | exist _ (line, Some err, _) _ =>
      if Bufio.is_EOF err then (wi, None) else (wi, Some err)
    | exist _ (line, None, reader') Heq =>
      WatchdogInfoUnmarshal_loop (WatchdogInfo_line wi line) reader' }.
Proof. read_shortens Heq. Qed.

Definition WatchdogInfoUnmarshal (cmdOutBuff : Bufio.Reader)
  : Watchdog.WatchdogInfo * option error :=
  WatchdogInfoUnmarshal_loop Watchdog.zero cmdOutBuff.

(** The body of the loop of [ProcInfoUnmarshal]. *)
Definition ProcInfo_line (pi : list Proc.ProcInfo) (line : string)
  : list Proc.ProcInfo :=
  let line := Strings.TrimSpace line in
  let connectionInfo := Strings.Split line " " in
  if length connectionInfo =? 13 then
    let procInfo :=
      {| Proc.Database := nth 0 connectionInfo "";
         Proc.Username := nth 1 connectionInfo "";
         Proc.Connected := String.eqb (nth 12 connectionInfo "") "1" |} in
    pi ++ [procInfo]
  else pi.

Equations? ProcInfoUnmarshal_loop (pi : list Proc.ProcInfo)
  (reader : Bufio.Reader) : list Proc.ProcInfo * option error
  by wf (String.length (Bufio.data reader)) lt :=
  ProcInfoUnmarshal_loop pi reader
    with inspect (Bufio.ReadString newline reader) := {
    | exist _ (line, Some err, _) _ =>
      if Bufio.is_EOF err then (pi, None) else (pi, Some err)
    | exist _ (line, None, reader') Heq =>
      ProcInfoUnmarshal_loop (ProcInfo_line pi line) reader' }.
Proof. read_shortens Heq. Qed.

Definition ProcInfoUnmarshal (cmdOutBuff : Bufio.Reader)
  : list Proc.ProcInfo * option error :=
  ProcInfoUnmarshal_loop [] cmdOutBuff.

(** ** The operations of the client *)

Definition ExecNodeInfo (c : Client) (nodeID : Z)
  : IO (Node.NodeInfo * option error) :=
  r <- (if pcpPassFileSupport c
        then execPCPCommand c PCPNodeInfo
               ["--node-id=" +:+ Strconv.Itoa nodeID; "-v"]
        else execPCPCommand c PCPNodeInfo [Strconv.Itoa nodeID; "-v"]) ;;
  let '(bytesBuffer, err) := r in
  match err with
  | Some err => Ret (Node.zero, Some err)
  | None =>
    match NodeInfoUnmarshal (Bufio.NewBuffer bytesBuffer) with
    | (_, Some err) => Ret (Node.zero, Some err)
    | (nodeInfo, None) => Ret (nodeInfo, None)
    end
  end.

Definition ExecProcInfo (c : Client) : IO (list Proc.ProcInfo * option error) :=
  r <- execPCPCommand c PCPProcInfo ["--all"] ;;
  let '(bytesBuffer, err) := r in
  match err with
  | Some err => Ret ([], Some err)
  | None =>
    match ProcInfoUnmarshal (Bufio.NewBuffer bytesBuffer) with
    | (_, Some err) => Ret ([], Some err)
    | (procInfoArr, None) => Ret (procInfoArr, None)
    end
  end.

Definition ExecProcCount (c : Client) : IO (list string * option error) :=
  r <- execPCPCommand c PCPProcCount [] ;;
  let '(bytesBuffer, err) := r in
  match err with
  | Some err => Ret ([], Some err)
  | None =>
    let procCountString := Strings.TrimSpace bytesBuffer in
    Ret (Strings.Split procCountString " ", None)
  end.

Definition ExecWatchdogInfo (c : Client)
  : IO (Watchdog.WatchdogInfo * option error) :=
  r <- execPCPCommand c PCPWatchdogInfo ["-v"] ;;
  let '(bytesBuffer, err) := r in
  match err with
  | Some err => Ret (Watchdog.zero, Some err)
  | None =>
    match WatchdogInfoUnmarshal (Bufio.NewBuffer bytesBuffer) with
    | (_, Some err) => Ret (Watchdog.zero, Some err)
    | (watchdogInfo, None) => Ret (watchdogInfo, None)
    end
  end.

End Decoders.

(** ** The summary of the process inventory *)

(** Go's [int] has 64 bits: a sum wraps around. *)
Definition wrap_int (z : Z) : Z := ((z + 2 ^ 63) mod 2 ^ 64 - 2 ^ 63)%Z.

Module Summary.

Record ProcInfoSummary := {
  Active : gmap string Z;
  Inactive : gmap string Z
}.

End Summary.

Definition NewProcInfoSummary : Summary.ProcInfoSummary :=
  {| Summary.Active := ∅; Summary.Inactive := ∅ |}.

(** The statements [_, ok := m[database]; if !ok { m[database] = 0 };
    m[database]++] that [Add] runs on one of its two maps. *)
Definition increment (database : string) (m : gmap string Z) : gmap string Z :=
  let m := match m !! database with
           | Some _ => m
           | None => <[database := 0%Z]> m
           end in
  <[database := wrap_int (default 0%Z (m !! database) + 1)]> m.

Definition Add (p : Summary.ProcInfoSummary) (database : string) (active : bool)
  : Summary.ProcInfoSummary :=
  if active
  then {| Summary.Active := increment database (Summary.Active p);
          Summary.Inactive := Summary.Inactive p |}
  else {| Summary.Active := Summary.Active p;
          Summary.Inactive := increment database (Summary.Inactive p) |}.

(** The method [ProcInfoSummary] of the client. *)
Definition ProcInfoSummary (c : Client) (pi : list Proc.ProcInfo)
  : Summary.ProcInfoSummary :=
  fold_left (fun summary procInfo =>
               Add summary (Proc.Database procInfo) (Proc.Connected procInfo))
            pi NewProcInfoSummary.

(** * Notions used to state the properties *)

(** A newline as a text. *)
Definition nl : string := String newline "".

(** The complete, newline-terminated lines of a text, each with its
    newline, and the unterminated text after the last newline. *)
Fixpoint split_lines (s : string) : list string * string :=
  match s with
  | EmptyString => ([], "")
  | String c s' =>
    let '(lines, tail) := split_lines s' in
    if Ascii.eqb c newline then (String c "" :: lines, tail)
    else
      match lines with
      | l :: lines' => (String c l :: lines', tail)
      | [] => ([], String c tail)
      end
  end.

Definition complete_lines (s : string) : list string := fst (split_lines s).

(** The whitespace-separated fields of a text, as [strings.Fields] cuts
    them: the maximal runs of runes that are not spaces. *)
Fixpoint fields_from (cur : string) (ts : list Utf8.token) : list string :=
  match ts with
  | [] => if String.eqb cur "" then [] else [cur]
  | t :: ts' =>
    if Unicode.IsSpace (Utf8.rune t)
    then (if String.eqb cur "" then [] else [cur]) ++ fields_from "" ts'
    else fields_from (cur +:+ Utf8.raw t) ts'
  end.

Definition whitespace_fields (s : string) : list string :=
  fields_from "" (Utf8.runes s).

(** A text of the shape N.N.N: digits, a dot, digits, a dot, digits. *)
Definition is_number (s : string) : bool :=
  (0 <? String.length s) && forallb Strconv.is_digit (list_ascii_of_string s).

Definition dotted_triple (s : string) : bool :=
  match Strings.Split s "." with
  | [a; b; c] => is_number a && is_number b && is_number c
  | _ => false
  end.

(** Every text that occurs in [s]: [len] bytes from offset [from]. *)
Definition substrings (s : string) : list string :=
  flat_map (fun from =>
              map (fun len => String.substring from len s)
                  (seq 0 (S (String.length s - from))))
           (seq 0 (S (String.length s))).

Definition has_dotted_triple (s : string) : bool :=
  existsb dotted_triple (substrings s).

(** The connection operands are given: a host name, a user name and a
    positive port. *)
Definition connection_given (o : Options) : Prop :=
  Hostname o <> "" /\ Username o <> "" /\ (0 < Port o)%Z.

(** The error that reports an invalid configuration [o], where [st] is
    what [os.Stat] answers for the credentials file of [o]: the error of
    the first check that fails, in the order host name, user name, port,
    then the credentials file when one is named (missing, not to be
    inspected, a directory, a mode other than 0600) and the password when
    none is. *)
Inductive ConfigurationError (o : Options) (st : StatResult) : error -> Prop :=
| CE_hostname :
    Hostname o = "" ->
    ConfigurationError o st (errorString "PCP hostname must be specified")
| CE_username :
    Hostname o <> "" -> Username o = "" ->
    ConfigurationError o st (errorString "PCP username must be specified")
| CE_port :
    Hostname o <> "" -> Username o <> "" -> (Port o <= 0)%Z ->
    ConfigurationError o st (errorString "PCP port must be greater than zero")
| CE_password :
    connection_given o -> PassFile o = "" -> Password o = "" ->
    ConfigurationError o st (errorString
      "PCP password or pcppass file (pgpool-II 3.5 and above) must be specified")
| CE_file_missing err :
    connection_given o -> PassFile o <> "" -> st = StatFail err true ->
    ConfigurationError o st
      (errorString ("pcppass " +:+ PassFile o +:+ " does not exist"))
| CE_file_stat err :
    connection_given o -> PassFile o <> "" -> st = StatFail err false ->
    ConfigurationError o st (Errorf_v "cannot retrieve file mode: " err "")
| CE_file_dir mode :
    connection_given o -> PassFile o <> "" -> st = StatInfo mode ->
    IsDir mode = true ->
    ConfigurationError o st (errorString "pcppass must be a file")
| CE_file_mode mode :
    connection_given o -> PassFile o <> "" -> st = StatInfo mode ->
    IsDir mode = false -> mode <> mode_0600 ->
    ConfigurationError o st
      (errorString ("unexpected file mode for '" +:+ PassFile o +:+ "': "
                    +:+ FileMode_String mode)).

(** A version is below Major.Minor.Patch: in the order of semantic
    versions, where a pre-release comes before its release. *)
Definition version_below (v : Semver.Version) (major minor patch : Z) : Prop :=
  (Semver.Major v < major
   \/ (Semver.Major v = major
       /\ (Semver.Minor v < minor
           \/ (Semver.Minor v = minor
               /\ (Semver.Patch v < patch
                   \/ (Semver.Patch v = patch
                       /\ Semver.PreRelease v <> ""))))))%Z.

(** ** Sample values *)

(** A world without a state that gives the same answers every time. *)
Definition fixed_world (r : RunResult) (st : StatResult) (tmp : File + error)
           (rm : option error) : World unit :=
  {| on_run := fun w _ _ _ => (r, w);
     on_stat := fun w _ => (st, w);
     on_tempfile := fun w _ _ => (tmp, w);
     on_write := fun w _ _ => (None, w);
     on_chmod := fun w _ _ => (None, w);
     on_remove := fun w _ => (rm, w) |}.

(** [pgpool --version] prints on standard error. *)
Definition version_output (text : string) : RunResult :=
  {| stdout := ""; stderr := text; run_err := None |}.

Definition failed_run : RunResult :=
  {| stdout := "out" +:+ nl;
     stderr := "connection refused";
     run_err := Some (External "exit status 1") |}.

Definition sample_options : Options :=
  {| PassFile := ""; Hostname := "h"; Port := 10; Username := "u";
     Password := "p"; Timeout := 5 |}.

Definition legacy_client : Client := emptyClient sample_options.

(** The binary64 number 0.5: 2^52 * 2^-53. *)
Definition float_0_5 : spec_float := S754_finite false 4503599627370496 (-53).

(** An instance of [strconv.ParseFloat] on plain decimal numerals (a sign,
    digits, at most one point), rounded to the nearest binary64 number;
    it refuses every other text. *)
Fixpoint decimal_parts (seen_point : bool) (m : Z) (k digits : nat) (s : string)
  : option (Z * nat * nat) :=
  match s with
  | EmptyString => Some (m, k, digits)
  | String c s' =>
    if Strconv.is_digit c
    then decimal_parts seen_point (10 * m + Z.of_N (byte_of c - 48))%Z
           (if seen_point then S k else k) (S digits) s'
    else if Ascii.eqb c "." && negb seen_point
    then decimal_parts true m k digits s'
    else None
  end.

Definition ParseFloat_decimal (s : string) : spec_float * option error :=
  let syntax := (S754_zero false, Some (NumError "ParseFloat" s ErrSyntax)) in
  match s with
  | EmptyString => syntax
  | String c0 rest =>
    let neg := Ascii.eqb c0 "-" in
    let body := if Ascii.eqb c0 "+" || neg then rest else s in
    match decimal_parts false 0 0 0 body with
    | Some (m, k, S _) =>
      if (m =? 0)%Z then (S754_zero neg, None)
      else
        let '(q, e, l) := SFdiv_core_binary 53 1024 m 0 (10 ^ Z.of_nat k) 0 in
        match binary_round_aux 53 1024 neg q e l with
        | S754_infinity sg =>
          (S754_infinity sg, Some (NumError "ParseFloat" s ErrRange))
        | f => (f, None)
        end
    | _ => syntax
    end
  end.

(** The output block of the node-info example. *)
Definition node_info_sample : string :=
  "Hostname: db1" +:+ nl +:+ "Port: 5432" +:+ nl +:+ "Status: 2" +:+ nl
  +:+ "Weight: 0.5" +:+ nl +:+ "Role: primary" +:+ nl.

(** ** Further notions for the statements *)

(** The error a reading loop ends with: none at the end of the stream. *)
Definition end_of_stream (e : error) : option error :=
  if Bufio.is_EOF e then None else Some e.

(** A caller-supplied argument is a flag when it starts with [-]. *)
Definition is_flag (ar : string) : bool := Strings.HasPrefix ar "-".

(** The parts [ProcInfoUnmarshal] cuts a line into. *)
Definition space_parts (line : string) : list string :=
  Strings.Split (Strings.TrimSpace line) " ".

Definition accepted_row (line : string) : bool :=
  length (space_parts line) =? 13.

Definition row_of (line : string) : Proc.ProcInfo :=
  {| Proc.Database := nth 0 (space_parts line) "";
     Proc.Username := nth 1 (space_parts line) "";
     Proc.Connected := String.eqb (nth 12 (space_parts line) "") "1" |}.

(** An invalid configuration, in a world [h]: no host name, no user name,
    a port that is not positive, or neither a password nor a usable
    credentials file, that is, no file named or, whenever the world is
    asked, not a regular file of mode 0600. *)
Definition invalid_configuration {W : Type} (h : World W) (o : Options) : Prop :=
  Hostname o = "" \/ Username o = "" \/ (Port o <= 0)%Z
  \/ (Password o = ""
      /\ (PassFile o = ""
          \/ forall w : W, fst (on_stat h w (PassFile o)) <> StatInfo mode_0600)).

(** The world a computation leaves. *)
Definition world_after {W A : Type} (h : World W) (w : W) (m : IO A) : W :=
  snd (fst (perform h w m)).

(** What [os.Stat] answers for the credentials file of [o] when it is asked
    right after the version probe of a fresh client, where [NewClient]
    validates. *)
Definition stat_after_probe {W : Type} (h : World W) (w : W) (o : Options)
  : StatResult :=
  fst (on_stat h (world_after h w (Version (emptyClient o))) (PassFile o)).

(** The temporary files a computation created. *)
Definition created_files (evs : list event) : list File :=
  flat_map (fun ev => match ev with
                      | EvTempFile _ _ (inl f) => [f]
                      | _ => []
                      end) evs.

(** A world in which every command fails. *)
Definition failing_world : World unit :=
  fixed_world failed_run (StatFail (External "stat") true)
              (inr (External "no temporary file")) None.

(** A world with a pooler of version 3.7.1, no credentials file, and a
    temporary directory. *)
Definition probe_only_world : World unit :=
  fixed_world (version_output "pgpool-II version 3.7.1 (amefuriboshi)")
              (StatFail (External "stat") true)
              (inl {| Name := "/tmp/pgpool2000" |}) None.

Definition no_hostname : Options :=
  {| PassFile := ""; Hostname := ""; Port := 9898; Username := "pcp";
     Password := "secret"; Timeout := 5 |}.

(** The client [NewClient sample_options] builds in [probe_only_world]. *)
Definition sample_client : Client :=
  {| options := sample_options;
     version := Some (Semver.New "3.7.1");
     pcpPassFileSupport := true;
     pcpPassFile := "/tmp/pgpool2000";
     pcpPassFileUser := false;
     pcpPassTempFile := Some {| Name := "/tmp/pgpool2000" |} |}.

(** A world whose pooler is exactly of version 3.5.0. *)
Definition boundary_world : World unit :=
  fixed_world (version_output "pgpool-II version 3.5.0 (ekieboshi)")
              (StatFail (External "stat") true)
              (inl {| Name := "/tmp/pgpool2000" |}) None.


(** ** Notions for the further properties *)

(** The number of rows of a database with a given connection flag. *)
Definition rows_of (database : string) (connected : bool)
           (pi : list Proc.ProcInfo) : Z :=
  Z.of_nat (length (List.filter
    (fun r => String.eqb (Proc.Database r) database
              && Bool.eqb (Proc.Connected r) connected) pi)).

(** A count as a map holds it: no entry for zero. *)
Definition tally (n : Z) : option Z := if (n =? 0)%Z then None else Some n.

Definition tallies (p : Summary.ProcInfoSummary) (l : list Proc.ProcInfo) : Prop :=
  forall d : string,
    Summary.Active p !! d = tally (rows_of d true l)
    /\ Summary.Inactive p !! d = tally (rows_of d false l).

Definition three_rows : list Proc.ProcInfo :=
  [ {| Proc.Database := "app"; Proc.Username := "u"; Proc.Connected := true |};
    {| Proc.Database := "app"; Proc.Username := "u"; Proc.Connected := false |};
    {| Proc.Database := "app"; Proc.Username := "v"; Proc.Connected := true |} ].

Definition is_remove (e : event) : bool :=
  match e with EvRemove _ => true | _ => false end.

(** The request of the version probe. *)
Definition probe : event := EvRun PGPool (Some []) ["--version"].

(** The one line of a credentials file. *)
Definition credentials_line (o : Options) : string :=
  Hostname o +:+ ":" +:+ Strconv.Itoa (Port o) +:+ ":" +:+ Username o
  +:+ ":" +:+ Password o.

(** The client as [NewClient] hands it to [Validate]. *)
Definition with_PassFile (o : Options) (c : Client) : Client :=
  if negb (String.length (PassFile o) =? 0)
  then set_pcpPassFileUser true (set_pcpPassFile (PassFile o) c)
  else c.

(** A world in which every file is a regular file of mode 0600. *)
Definition owner_only_world : World unit :=
  fixed_world (version_output "pgpool-II version 3.7.1 (amefuriboshi)")
              (StatInfo mode_0600)
              (inl {| Name := "/tmp/pgpool2000" |}) None.

(** A world like [probe_only_world] in which changing a mode fails. *)
Definition chmod_fails_world : World unit :=
  {| on_run := fun w _ _ _ =>
       (version_output "pgpool-II version 3.7.1 (amefuriboshi)", w);
     on_stat := fun w _ => (StatFail (External "stat") true, w);
     on_tempfile := fun w _ _ => (inl {| Name := "/tmp/pgpool2000" |}, w);
     on_write := fun w _ _ => (None, w);
     on_chmod := fun w _ _ =>
       (Some (External "chmod: operation not permitted"), w);
     on_remove := fun w _ => (None, w) |}.

(** The arguments [ExecNodeInfo] passes for a node. *)
Definition node_info_args (c : Client) (nodeID : Z) : list string :=
  if pcpPassFileSupport c
  then ["--node-id=" +:+ Strconv.Itoa nodeID; "-v"]
  else [Strconv.Itoa nodeID; "-v"].

(** The error [execPCPCommand] makes of a failed run. *)
Definition wrapped (r : RunResult) : option error :=
  match run_err r with
  | Some e =>
    Some (Errorf_v "" e (" (" +:+ Strings.TrimSpace (stdout r) +:+ ")"))
  | None => None
  end.

(** The number of bytes of a text that are spaces. *)
Fixpoint spaces (s : string) : nat :=
  match s with
  | EmptyString => 0
  | String c s' => (if Ascii.eqb c " " then 1 else 0) + spaces s'
  end.

(** The client with another password and another timeout. *)
Definition with_secret (password : string) (timeout : Z) (c : Client) : Client :=
  {| options :=
       {| PassFile := PassFile (options c); Hostname := Hostname (options c);
          Port := Port (options c); Username := Username (options c);
          Password := password; Timeout := timeout |};
     version := version c;
     pcpPassFileSupport := pcpPassFileSupport c;
     pcpPassFile := pcpPassFile c;
     pcpPassFileUser := pcpPassFileUser c;
     pcpPassTempFile := pcpPassTempFile c |}.

(** A stream that delivers [s] and then breaks with the error [e]. *)
Definition broken_stream (s : string) (e : error) : Bufio.Reader :=
  {| Bufio.data := s; Bufio.final := e |}.

(** A line that turns the VIP flag on: it carries the label, its value is
    exactly [YES], and it carries no label of a node count, which would
    end the pass over the line before the flag is looked at. *)
Definition sets_vip (line : string) : bool :=
  let t := Strings.TrimSpace line in
  Strings.Contains t "VIP up on local node"
  && String.eqb (ExtractValueFromPCPString t) "YES"
  && negb (Strings.Contains t "Total Nodes")
  && negb (Strings.Contains t "Remote Nodes").

(** The status text of a node agrees with its status code, or no status
    line was decoded and both are at their zero values. *)
Definition status_consistent (ni : Node.NodeInfo) : Prop :=
  (Node.Status ni = "" /\ Node.StatusCode ni = 0%Z)
  \/ Node.Status ni = NodeStatusCodeToString (Node.StatusCode ni).

(** The same for the quorum state and its code. *)
Definition quorum_consistent (wi : Watchdog.WatchdogInfo) : Prop :=
  (Watchdog.QuorumState wi = "" /\ Watchdog.QuorumStateCode wi = 0%Z)
  \/ Watchdog.QuorumStateCode wi = QuorumStateToCode (Watchdog.QuorumState wi).

(** A byte below 0x80: a rune of its own in UTF-8. *)
Definition ascii_byte (c : ascii) : bool := (byte_of c <? 0x80)%N.

(** The byte [c] occurs in [s]. *)
Fixpoint has_byte (c : ascii) (s : string) : bool :=
  match s with
  | EmptyString => false
  | String d s' => Ascii.eqb d c || has_byte c s'
  end.

(** The text before the first byte [c] of [s] and the text after it. *)
Fixpoint cut_at (c : ascii) (s : string) : option (string * string) :=
  match s with
  | EmptyString => None
  | String d s' =>
    if Ascii.eqb d c then Some (EmptyString, s')
    else match cut_at c s' with
         | Some (a, b) => Some (String d a, b)
         | None => None
         end
  end.

(** The value of a [label: value] line, read off its bytes: the first
    colon has text before it and a space right after it, and the value is
    all that follows that space, provided no newline is in it; the empty
    text for every other line. *)
Definition value_after_label (line : string) : string :=
  match cut_at ":" line with
  | Some (String _ _, String d value) =>
    if Ascii.eqb d " " && negb (has_byte newline value) then value else ""
  | _ => ""
  end.

(** What follows the label in [PCPValueRegExp]: the colon, the space, the
    group and the end of the text. *)
Definition after_label : Regexp.regex :=
  Regexp.Cat (Regexp.Class (Regexp.rune_is ":"))
    (Regexp.Cat (Regexp.Class (Regexp.rune_is " "))
       (Regexp.Cat (Regexp.Capture (Regexp.Star Regexp.any_not_nl))
          Regexp.EndText)).

(** The continuation of a complete match, and the one of the group that
    started at [from] and must reach the end of the text. *)
Definition matched (_ : list Utf8.token) (pos : nat) (cap : option (nat * nat))
  : option (nat * option (nat * nat)) := Some (pos, cap).

Definition at_end (from : nat) (inp : list Utf8.token) (pos : nat)
           (_ : option (nat * nat)) : option (nat * option (nat * nat)) :=
  match inp with
  | [] => Some (pos, Some (from, pos))
  | _ :: _ => None
  end.

(** The connection operands of the legacy invocation. *)
Definition connection (c : Client) : list string :=
  [Strconv.Itoa (Timeout (options c)); Hostname (options c);
   Strconv.Itoa (Port (options c)); Username (options c);
   Password (options c)].

(** A world whose every command succeeds and prints [text] on standard
    output. *)
Definition printing_world (text : string) : World unit :=
  fixed_world {| stdout := text; stderr := ""; run_err := None |}
              (StatFail (External "stat") true)
              (inl {| Name := "/tmp/pgpool2000" |}) None.

(** A byte that is ASCII and no space, and a text of such bytes. *)
Definition plain_byte (c : ascii) : bool :=
  ascii_byte c && negb (Unicode.IsSpace (byte_of c)).

Fixpoint plain (s : string) : bool :=
  match s with
  | EmptyString => true
  | String c s' => plain_byte c && plain s'
  end.

(** * Properties *)

(** ** Auxiliary facts *)

Lemma length_eqb_0 (s : string) : (String.length s =? 0) = true <-> s = "".
Proof. destruct s; simpl; split; intros H; congruence. Qed.

Lemma fold_left_select {A : Type} (p : A -> bool) (l init : list A) :
  fold_left (fun acc a => if p a then acc ++ [a] else acc) l init
  = init ++ List.filter p l.
Proof.
  revert init. induction l as [|a l IH]; intros init; simpl.
  - now rewrite app_nil_r.
  - rewrite IH. destruct (p a); [|reflexivity].
    now rewrite <- app_assoc.
Qed.

(** *** Running a sequence of two computations *)

Lemma perform_bind {W A B : Type} (h : World W) (m : IO A) (f : A -> IO B) :
  forall w : W,
    perform h w (bind m f)
    = (let r1 := perform h w m in
       let r2 := perform h (snd (fst r1)) (f (fst (fst r1))) in
       (fst (fst r2), snd (fst r2), snd r1 ++ snd r2)).
Proof.
  induction m as [a|cmd env arg k IH|name k IH|dir pat k IH|fl s k IH
                  |fl mode k IH|name k IH]; intros w; simpl.
  - destruct (perform h w (f a)) as [[b w2] evs]. reflexivity.
  - destruct (on_run h w cmd env arg) as [r w1]. rewrite IH.
    destruct (perform h w1 (k r)) as [[a w2] ev1]. simpl.
    destruct (perform h w2 (f a)) as [[b w3] ev2]. reflexivity.
  - destruct (on_stat h w name) as [r w1]. rewrite IH.
    destruct (perform h w1 (k r)) as [[a w2] ev1]. simpl.
    destruct (perform h w2 (f a)) as [[b w3] ev2]. reflexivity.
  - destruct (on_tempfile h w dir pat) as [r w1]. rewrite IH.
    destruct (perform h w1 (k r)) as [[a w2] ev1]. simpl.
    destruct (perform h w2 (f a)) as [[b w3] ev2]. reflexivity.
  - destruct (on_write h w fl s) as [r w1]. rewrite IH.
    destruct (perform h w1 (k r)) as [[a w2] ev1]. simpl.
    destruct (perform h w2 (f a)) as [[b w3] ev2]. reflexivity.
  - destruct (on_chmod h w fl mode) as [r w1]. rewrite IH.
    destruct (perform h w1 (k r)) as [[a w2] ev1]. simpl.
    destruct (perform h w2 (f a)) as [[b w3] ev2]. reflexivity.
  - destruct (on_remove h w name) as [r w1]. rewrite IH.
    destruct (perform h w1 (k r)) as [[a w2] ev1]. simpl.
    destruct (perform h w2 (f a)) as [[b w3] ev2]. reflexivity.
Qed.


(** *** Lines *)

Lemma cut_split_lines (s : string) :
  match Bufio.cut newline s with
  | Some (line, rest) =>
    split_lines s = (line :: fst (split_lines rest), snd (split_lines rest))
  | None => fst (split_lines s) = []
  end.
Proof.
  induction s as [|c s IH]; simpl; [reflexivity|].
  destruct (Ascii.eqb c newline) eqn:Hc.
  - destruct (split_lines s); reflexivity.
  - destruct (Bufio.cut newline s) as [[line rest]|].
    + rewrite IH. reflexivity.
    + destruct (split_lines s) as [lines tail]. simpl in IH. subst lines.
      reflexivity.
Qed.

Lemma cut_shorter (s line rest : string) :
  Bufio.cut newline s = Some (line, rest) ->
  String.length rest < String.length s.
Proof.
  revert line rest. induction s as [|c s IH]; simpl; intros line rest H.
  - discriminate.
  - destruct (Ascii.eqb c newline).
    + injection H as _ <-. lia.
    + destruct (Bufio.cut newline s) as [[l r]|]; [|discriminate].
      injection H as _ <-. specialize (IH _ _ eq_refl). lia.
Qed.

Lemma split_lines_unterminated (tail : string) :
  Strings.Contains tail nl = false -> split_lines tail = ([], tail).
Proof.
  induction tail as [|c tail IH]; simpl; [reflexivity|].
  intros H. apply Bool.orb_false_iff in H as [Hc Ht].
  rewrite (IH Ht).
  destruct (Ascii.eqb c newline) eqn:E; [|reflexivity].
  apply Ascii.eqb_eq in E. subst c.
  simpl in Hc. destruct tail; discriminate Hc.
Qed.

Lemma split_lines_app (pre tail : string) :
  Strings.Contains tail nl = false ->
  split_lines (pre +:+ tail)
  = (fst (split_lines pre), snd (split_lines pre) +:+ tail).
Proof.
  intros Ht. induction pre as [|c pre IH]; simpl.
  - apply split_lines_unterminated, Ht.
  - change (String.append pre tail) with (pre +:+ tail). rewrite IH.
    destruct (split_lines pre) as [lines tl]. simpl.
    destruct (Ascii.eqb c newline); [reflexivity|].
    destruct lines; reflexivity.
Qed.

Lemma complete_lines_app (pre tail : string) :
  Strings.Contains tail nl = false ->
  complete_lines (pre +:+ tail) = complete_lines pre.
Proof.
  intros Ht. unfold complete_lines. rewrite split_lines_app by exact Ht.
  reflexivity.
Qed.

(** *** The reading loops

    A loop that reads a line, ends at the end of the stream and otherwise
    runs its body on the line, folds the body over the complete lines. *)

Section ReadingLoop.

Context {St : Type}.
Variable body : St -> string -> St.
Variable loop : St -> Bufio.Reader -> St * option error.
Hypothesis loop_unfold : forall st r,
    loop st r =
    match Bufio.ReadString newline r with
    | (_, Some err, _) => if Bufio.is_EOF err then (st, None) else (st, Some err)
    | (line, None, r') => loop (body st line) r'
    end.

Lemma loop_lines (n : nat) : forall (s : string) (e : error) (st : St),
    String.length s < n ->
    loop st {| Bufio.data := s; Bufio.final := e |}
    = (fold_left body (complete_lines s) st, end_of_stream e).
Proof.
  induction n as [|n IH]; intros s e st Hn; [lia|].
  rewrite loop_unfold. unfold Bufio.ReadString, complete_lines. simpl.
  pose proof (cut_split_lines s) as Hs.
  pose proof (cut_shorter s) as Hlen.
  destruct (Bufio.cut newline s) as [[line rest]|].
  - rewrite Hs. simpl. rewrite IH.
    + reflexivity.
    + specialize (Hlen _ _ eq_refl). lia.
  - rewrite Hs. unfold end_of_stream. simpl.
    destruct (Bufio.is_EOF e); reflexivity.
Qed.

End ReadingLoop.

Section DecoderLoops.

Variable ParseFloat : string -> spec_float * option error.

Lemma NodeInfoUnmarshal_loop_step ni r :
  NodeInfoUnmarshal_loop ParseFloat ni r =
  match Bufio.ReadString newline r with
  | (_, Some err, _) => if Bufio.is_EOF err then (ni, None) else (ni, Some err)
  | (line, None, r') =>
    NodeInfoUnmarshal_loop ParseFloat (NodeInfo_line ParseFloat ni line) r'
  end.
Proof.
  funelim (NodeInfoUnmarshal_loop ParseFloat ni r).
  - rewrite e. reflexivity.
  - rewrite Heq. reflexivity.
Qed.

Lemma WatchdogInfoUnmarshal_loop_step wi r :
  WatchdogInfoUnmarshal_loop wi r =
  match Bufio.ReadString newline r with
  | (_, Some err, _) => if Bufio.is_EOF err then (wi, None) else (wi, Some err)
  | (line, None, r') =>
    WatchdogInfoUnmarshal_loop (WatchdogInfo_line wi line) r'
  end.
Proof.
  funelim (WatchdogInfoUnmarshal_loop wi r).
  - rewrite e. reflexivity.
  - rewrite Heq. reflexivity.
Qed.

Lemma ProcInfoUnmarshal_loop_step pi r :
  ProcInfoUnmarshal_loop pi r =
  match Bufio.ReadString newline r with
  | (_, Some err, _) => if Bufio.is_EOF err then (pi, None) else (pi, Some err)
  | (line, None, r') =>
    ProcInfoUnmarshal_loop (ProcInfo_line pi line) r'
  end.
Proof.
  funelim (ProcInfoUnmarshal_loop pi r).
  - rewrite e. reflexivity.
  - rewrite Heq. reflexivity.
Qed.

Lemma NodeInfoUnmarshal_lines (r : Bufio.Reader) :
  NodeInfoUnmarshal ParseFloat r
  = (fold_left (NodeInfo_line ParseFloat) (complete_lines (Bufio.data r)) Node.zero,
     end_of_stream (Bufio.final r)).
Proof.
  destruct r as [s e]. unfold NodeInfoUnmarshal.
  apply (loop_lines _ _ NodeInfoUnmarshal_loop_step (S (String.length s))).
  simpl. lia.
Qed.

Lemma WatchdogInfoUnmarshal_lines (r : Bufio.Reader) :
  WatchdogInfoUnmarshal r
  = (fold_left WatchdogInfo_line (complete_lines (Bufio.data r)) Watchdog.zero,
     end_of_stream (Bufio.final r)).
Proof.
  destruct r as [s e]. unfold WatchdogInfoUnmarshal.
  apply (loop_lines _ _ WatchdogInfoUnmarshal_loop_step (S (String.length s))).
  simpl. lia.
Qed.

Lemma ProcInfoUnmarshal_lines (r : Bufio.Reader) :
  ProcInfoUnmarshal r
  = (fold_left ProcInfo_line (complete_lines (Bufio.data r)) [],
     end_of_stream (Bufio.final r)).
Proof.
  destruct r as [s e]. unfold ProcInfoUnmarshal.
  apply (loop_lines _ _ ProcInfoUnmarshal_loop_step (S (String.length s))).
  simpl. lia.
Qed.

End DecoderLoops.

Lemma ProcInfo_lines_rows (lines : list string) (pi : list Proc.ProcInfo) :
  fold_left ProcInfo_line lines pi
  = pi ++ map row_of (List.filter accepted_row lines).
Proof.
  revert pi. induction lines as [|line lines IH]; intros pi; simpl.
  - now rewrite app_nil_r.
  - rewrite IH. unfold ProcInfo_line at 1.
    fold (space_parts line). fold (accepted_row line).
    destruct (accepted_row line); [|reflexivity].
    simpl. rewrite <- app_assoc. reflexivity.
Qed.

(** *** Construction of a client, step by step *)

(** What the version probe of a fresh client leaves. *)
Lemma Version_emptyClient {W : Type} (h : World W) (w : W) (o : Options) :
  exists (c : Client) (res : Semver.Version + error) (w1 : W),
    perform h w (Version (emptyClient o))
    = ((c, res), w1, [EvRun PGPool (Some []) ["--version"]])
    /\ options c = o /\ pcpPassFileSupport c = false /\ pcpPassFile c = ""
    /\ pcpPassFileUser c = false /\ pcpPassTempFile c = None.
Proof.
  unfold Version. simpl.
  destruct (on_run h w PGPool (Some []) ["--version"]) as [r w1].
  destruct (run_err r) as [e|]; simpl; [repeat eexists|].
  destruct (String.length (Strings.TrimSpace (stderr r)) =? 0); simpl;
    [repeat eexists|].
  destruct (String.length (ExtractVersion _ _) =? 0); simpl; [repeat eexists|].
  destruct (Semver.NewVersion _) as [v|e]; simpl; repeat eexists.
Qed.

Lemma Validate_rejects {W : Type} (h : World W) (w : W) (c : Client) :
  pcpPassFile c = PassFile (options c) ->
  invalid_configuration h (options c) ->
  exists (err : error) (w1 : W) (evs : list event),
    perform h w (Validate c) = ((c, Some err), w1, evs)
    /\ List.filter is_run evs = []
    /\ ConfigurationError (options c)
         (fst (on_stat h w (PassFile (options c)))) err.
Proof.
  intros Hfile Hinv. unfold Validate.
  destruct (String.length (Hostname (options c)) =? 0) eqn:Hh.
  { apply length_eqb_0 in Hh. repeat eexists. now constructor. }
  assert (Hh' : Hostname (options c) <> "").
  { intros E. rewrite E in Hh. discriminate. }
  destruct (String.length (Username (options c)) =? 0) eqn:Hu.
  { apply length_eqb_0 in Hu. repeat eexists. now constructor. }
  assert (Hu' : Username (options c) <> "").
  { intros E. rewrite E in Hu. discriminate. }
  destruct (Port (options c) <=? 0)%Z eqn:Hp.
  { apply Z.leb_le in Hp. repeat eexists. now constructor. }
  apply Z.leb_gt in Hp.
  assert (Hgiven : connection_given (options c)) by (repeat split; auto).
  assert (Hpw : Password (options c) = ""
                /\ (PassFile (options c) = ""
                    \/ forall w0, fst (on_stat h w0 (PassFile (options c)))
                                  <> StatInfo mode_0600)).
  { destruct Hinv as [H|[H|[H|H]]]; [contradiction|contradiction|lia|exact H]. }
  destruct Hpw as [Hpw Hpf]. rewrite Hfile.
  destruct (String.length (PassFile (options c)) =? 0) eqn:Hf; simpl.
  - rewrite Hpw. simpl. apply length_eqb_0 in Hf. repeat eexists.
    now constructor.
  - assert (Hne : PassFile (options c) <> "").
    { intros E. rewrite E in Hf. discriminate. }
    destruct Hpf as [Hpf|Hpf]; [contradiction|]. specialize (Hpf w).
    destruct (on_stat h w (PassFile (options c))) as [st w1]. simpl in Hpf.
    destruct st as [mode|err [|]]; simpl.
    + destruct (IsDir mode) eqn:Hd; simpl.
      { repeat eexists. now apply (CE_file_dir _ _ mode). }
      destruct (mode =? mode_0600)%N eqn:Hm; simpl.
      { apply N.eqb_eq in Hm. subst mode. contradiction. }
      repeat eexists. apply (CE_file_mode _ _ mode); auto.
      intros E. subst mode. rewrite N.eqb_refl in Hm. discriminate.
    + repeat eexists. now apply (CE_file_missing _ _ err).
    + repeat eexists. now apply (CE_file_stat _ _ err).
Qed.

(** An invalid configuration has one error. *)
Lemma ConfigurationError_unique (o : Options) (st : StatResult)
      (e1 e2 : error) :
  ConfigurationError o st e1 -> ConfigurationError o st e2 -> e1 = e2.
Proof.
  intros H1 H2. destruct H1; destruct H2; subst;
    unfold connection_given in *;
    repeat match goal with
           | H : _ /\ _ |- _ => destruct H
           end;
    try reflexivity; try contradiction; try congruence; try lia.
Qed.



(** The threshold of the capability gate, in numbers. *)
Lemma LessThan_since (v : Semver.Version) :
  Semver.LessThan v PGPoolPCPPassFileSince = true <-> version_below v 3 5 0.
Proof.
  change PGPoolPCPPassFileSince
    with {| Semver.Major := 3; Semver.Minor := 5; Semver.Patch := 0;
            Semver.PreRelease := ""; Semver.Metadata := "" |}.
  unfold Semver.LessThan, Semver.Compare, Semver.Slice, version_below.
  destruct v as [M m p pre meta]; simpl.
  rewrite !Z.gtb_ltb.
  destruct (Z.ltb_spec 3 M); simpl.
  { split; [discriminate | lia]. }
  destruct (Z.ltb_spec M 3); simpl.
  { split; [lia | reflexivity]. }
  destruct (Z.ltb_spec 5 m); simpl.
  { split; [discriminate | lia]. }
  destruct (Z.ltb_spec m 5); simpl.
  { split; [lia | reflexivity]. }
  destruct (Z.ltb_spec 0 p); simpl.
  { split; [discriminate | lia]. }
  destruct (Z.ltb_spec p 0); simpl.
  { split; [lia | reflexivity]. }
  unfold Semver.preReleaseCompare; simpl.
  destruct pre as [|c pre]; simpl.
  - split; [discriminate|]. intros Hb.
    repeat (destruct Hb as [Hb|Hb]; [lia|]; destruct Hb as [_ Hb]).
    congruence.
  - split; [|reflexivity].
    intros _. right. split; [lia|]. right. split; [lia|]. right.
    split; [lia|]. discriminate.
Qed.

(** ** The claims *)

(** C1, as amended.  When the run of an administrative command fails,
    [execPCPCommand] hands back the captured standard output and an error
    that wraps the error of the run followed, in parentheses, by the
    captured standard OUTPUT trimmed of surrounding whitespace.  The
    command is run once, and the captured standard error is not used. *)
Theorem execPCPCommand_failure_wraps_stdout
        (W : Type) (h : World W) (w w1 : W) (c : Client) (cmd : string)
        (arg : list string) (r : RunResult) (e : error) :
  on_run h w cmd (fst (execPCPCommand_args c arg))
         (snd (execPCPCommand_args c arg)) = (r, w1) ->
  run_err r = Some e ->
  perform h w (execPCPCommand c cmd arg)
  = ((stdout r,
      Some (Errorf_v "" e (" (" +:+ Strings.TrimSpace (stdout r) +:+ ")"))),
     w1,
     [EvRun cmd (fst (execPCPCommand_args c arg))
            (snd (execPCPCommand_args c arg))]).
Proof.
  intros Hrun Herr. unfold execPCPCommand.
  destruct (execPCPCommand_args c arg) as [env argResult]. simpl in *.
  rewrite Hrun, Herr. reflexivity.
Qed.

Lemma execPCPCommand_failure_wraps_stdout_witness :
  perform failing_world tt (execPCPCommand legacy_client PCPNodeCount [])
  = (("out" +:+ nl, Some (Errorf_v "" (External "exit status 1") " (out)")),
     tt,
     [EvRun PCPNodeCount None ["5"; "h"; "10"; "u"; "p"]]).
Proof.
  apply (execPCPCommand_failure_wraps_stdout unit failing_world tt tt
           legacy_client PCPNodeCount [] failed_run (External "exit status 1"));
    reflexivity.
Defined.

(** C1, as stated, fails: a command that fails after printing [out] on its
    standard output and [connection refused] on its standard error gives an
    error that carries [out], not the trimmed standard error. *)
Lemma execPCPCommand_stderr_counterexample :
  run_err failed_run = Some (External "exit status 1")
  /\ Strings.TrimSpace (stderr failed_run) = "connection refused"
  /\ snd (result failing_world tt (execPCPCommand legacy_client PCPNodeCount []))
     = Some (Errorf_v "" (External "exit status 1") " (out)")
  /\ snd (result failing_world tt (execPCPCommand legacy_client PCPNodeCount []))
     <> Some (Errorf_v "" (External "exit status 1")
                (" (" +:+ Strings.TrimSpace (stderr failed_run) +:+ ")")).
Proof. repeat split; try reflexivity. vm_compute. discriminate. Qed.

(** C2, as amended.  For an invalid configuration [NewClient] gives no
    client but an error, and runs no PCP command: the one command it runs
    is the version probe [pgpool --version], which comes before the
    validation.  When the probe yields a version the error is the
    configuration error, the one of the first check that fails, with the
    credentials file judged by what [os.Stat] answers after the probe;
    no other error reports that configuration.  When the probe fails the
    error is that of the probe. *)
Theorem NewClient_invalid_configuration
        (W : Type) (h : World W) (w : W) (o : Options) :
  invalid_configuration h o ->
  exists err : error,
    result h w (NewClient o) = inr err
    /\ List.filter is_run (events h w (NewClient o))
       = [EvRun PGPool (Some []) ["--version"]]
    /\ ((exists v, snd (result h w (Version (emptyClient o))) = inl v) ->
        ConfigurationError o (stat_after_probe h w o) err
        /\ forall err' : error,
             ConfigurationError o (stat_after_probe h w o) err' -> err' = err)
    /\ (forall e, snd (result h w (Version (emptyClient o))) = inr e ->
        err = e).
Proof.
  intros Hinv.
  unfold result, events, stat_after_probe, world_after, NewClient,
    IsSupportPCPPassFile.
  rewrite !perform_bind.
  destruct (Version_emptyClient h w o)
    as (c & res & w1 & -> & Ho & _ & Hfile & _ & _).
  simpl. destruct res as [v|e]; simpl.
  2:{ exists e. split; [reflexivity|]. split; [reflexivity|].
      split; [intros [v Hv]; discriminate|].
      intros e' He'. congruence. }
  set (c1 := if negb (String.length (PassFile o) =? 0)
             then set_pcpPassFileUser true (set_pcpPassFile (PassFile o) c)
             else c).
  assert (Ho1 : options c1 = o).
  { subst c1. destruct (negb (String.length (PassFile o) =? 0)); exact Ho. }
  assert (Hf1 : pcpPassFile c1 = PassFile (options c1)).
  { rewrite Ho1. subst c1. destruct (String.length (PassFile o) =? 0) eqn:E;
      simpl; [|reflexivity].
    apply length_eqb_0 in E. congruence. }
  rewrite <- Ho1 in Hinv.
  destruct (Validate_rejects h w1 c1 Hf1 Hinv)
    as (err & w2 & evs & Hv & Hev & Hce).
  exists err. rewrite Ho1 in Hce.
  assert (Hone : forall err' : error,
             ConfigurationError o (fst (on_stat h w1 (PassFile o))) err' ->
             err' = err).
  { intros err' Hce'. exact (ConfigurationError_unique _ _ _ _ Hce' Hce). }
  destruct (Semver.LessThan v PGPoolPCPPassFileSince); simpl;
    rewrite perform_bind; fold c1; rewrite Hv; simpl;
    rewrite app_nil_r, Hev; repeat split; auto; discriminate.
Qed.

Lemma NewClient_invalid_configuration_witness :
  exists err : error,
    result probe_only_world tt (NewClient no_hostname) = inr err
    /\ List.filter is_run (events probe_only_world tt (NewClient no_hostname))
       = [EvRun PGPool (Some []) ["--version"]]
    /\ ((exists v, snd (result probe_only_world tt
                          (Version (emptyClient no_hostname))) = inl v) ->
        ConfigurationError no_hostname
          (stat_after_probe probe_only_world tt no_hostname) err
        /\ forall err' : error,
             ConfigurationError no_hostname
               (stat_after_probe probe_only_world tt no_hostname) err' ->
             err' = err)
    /\ (forall e, snd (result probe_only_world tt
                         (Version (emptyClient no_hostname))) = inr e ->
        err = e).
Proof.
  apply (NewClient_invalid_configuration unit probe_only_world tt no_hostname).
  left. reflexivity.
Defined.

(** C2, as stated, fails: for options without a host name [NewClient] does
    invoke the run collaborator, for the version probe. *)
Lemma NewClient_probe_counterexample :
  invalid_configuration probe_only_world no_hostname
  /\ events probe_only_world tt (NewClient no_hostname)
     = [EvRun PGPool (Some []) ["--version"]]
  /\ existsb is_run (events probe_only_world tt (NewClient no_hostname)) = true.
Proof. split; [left; reflexivity|]. split; reflexivity. Qed.

(** C3, the code at the failing inputs.  On the example of the
    specification [ExtractVersion] gives the version.  But in
    [pgpool2 3.7.1], whose one N.N.N text is [3.7.1], it gives [2 3.7]: the
    dots of the pattern match any rune.  And [12345], which has no N.N.N
    text, is given back whole instead of the empty text. *)
Theorem ExtractVersion_unescaped_dot (c : Client) :
  ExtractVersion c "pgpool-II version 3.7.1 (some codename)" = "3.7.1"
  /\ (Strings.Contains "pgpool2 3.7.1" "3.7.1" = true
      /\ dotted_triple "3.7.1" = true
      /\ List.filter dotted_triple (substrings "pgpool2 3.7.1") = ["3.7.1"]
      /\ ExtractVersion c "pgpool2 3.7.1" = "2 3.7")
  /\ (has_dotted_triple "12345" = false
      /\ ExtractVersion c "12345" = "12345").
Proof. repeat split; vm_compute; reflexivity. Qed.

(** C4, as amended.  [ProcInfoUnmarshal] accepts exactly the complete
    lines that, trimmed, [strings.Split] cuts at the single space into
    exactly 13 parts, and skips every other line; a row has the part 0 as
    its database, the part 1 as its user name, and is connected exactly
    when the part 12 is the text [1].  The only error is a read error of
    the stream, and a buffer has none. *)
Theorem ProcInfoUnmarshal_rows (r : Bufio.Reader) :
  ProcInfoUnmarshal r
  = (map row_of (List.filter accepted_row (complete_lines (Bufio.data r))),
     end_of_stream (Bufio.final r))
  /\ (forall s : string, snd (ProcInfoUnmarshal (Bufio.NewBuffer s)) = None).
Proof.
  split.
  - rewrite ProcInfoUnmarshal_lines, ProcInfo_lines_rows. reflexivity.
  - intros s. rewrite ProcInfoUnmarshal_lines. reflexivity.
Qed.

(** C4, as stated, fails: a line of 13 whitespace-separated fields, two of
    them two spaces apart, is skipped, and a line of 12 such fields with
    two spaces between two of them is accepted. *)
Lemma ProcInfoUnmarshal_whitespace_counterexample :
  let thirteen := "db user a b c d e f g h  i j 1" in
  let twelve := "db user a b c d e f g  h i 1" in
  (length (whitespace_fields (Strings.TrimSpace thirteen)) = 13
   /\ ProcInfoUnmarshal (Bufio.NewBuffer (thirteen +:+ nl)) = ([], None))
  /\ (length (whitespace_fields (Strings.TrimSpace twelve)) = 12
      /\ ProcInfoUnmarshal (Bufio.NewBuffer (twelve +:+ nl))
         = ([ {| Proc.Database := "db"; Proc.Username := "user";
                 Proc.Connected := true |} ], None)).
Proof. vm_compute. repeat split. Qed.

(** C5.  Without the credentials-file capability the argument vector is:
    the caller's arguments that start with [-], in their order; then
    timeout, host name, port, user name, password; then the caller's other
    arguments, in their order.  The command is launched with exactly these
    arguments, and [-v 42] with timeout 5, host h, port 10, user u and
    password p gives [-v 5 h 10 u p 42]. *)
Theorem positional_argument_order (c : Client) (cmd : string) (arg : list string) :
  pcpPassFileSupport c = false ->
  let built :=
    List.filter is_flag arg
    ++ [Strconv.Itoa (Timeout (options c)); Hostname (options c);
        Strconv.Itoa (Port (options c)); Username (options c);
        Password (options c)]
    ++ List.filter (fun ar => negb (is_flag ar)) arg in
  execPCPCommand_args c arg = (None, built)
  /\ (forall W (h : World W) (w : W),
        events h w (execPCPCommand c cmd arg) = [EvRun cmd None built])
  /\ positionalArgs legacy_client ["-v"; "42"]
     = ["-v"; "5"; "h"; "10"; "u"; "p"; "42"].
Proof.
  intros Hlegacy built.
  assert (Hargs : execPCPCommand_args c arg = (None, built)).
  { unfold execPCPCommand_args. rewrite Hlegacy. f_equal.
    unfold positionalArgs. rewrite !fold_left_select. simpl.
    subst built. rewrite <- app_assoc. reflexivity. }
  split; [exact Hargs|]. split; [|reflexivity].
  intros W h w. unfold events, execPCPCommand. rewrite Hargs. simpl.
  destruct (on_run h w cmd None built) as [r w1].
  destruct (run_err r); reflexivity.
Qed.

Lemma positional_argument_order_witness :
  execPCPCommand_args legacy_client ["-v"; "42"]
  = (None, ["-v"; "5"; "h"; "10"; "u"; "p"; "42"]).
Proof.
  exact (proj1 (positional_argument_order legacy_client PCPNodeInfo
                  ["-v"; "42"] eq_refl)).
Defined.

(** C6.  Whenever [IsSupportPCPPassFile] ends without an error the client
    holds the resolved version, and the answer is false when that version
    is below 3.5.0 and true when it is not; with a version already
    resolved the gate runs nothing and is the comparison alone; for 3.5.0
    itself the answer is true. *)
Theorem IsSupportPCPPassFile_threshold :
  (forall W (h : World W) (w : W) (c c' : Client) (ok : bool) (w' : W)
          (evs : list event),
      perform h w (IsSupportPCPPassFile c) = ((c', (ok, None)), w', evs) ->
      exists v : Semver.Version,
        version c' = Some v
        /\ (version_below v 3 5 0 -> ok = false)
        /\ (~ version_below v 3 5 0 -> ok = true))
  /\ (forall (c : Client) (v : Semver.Version),
         version c = Some v ->
         IsSupportPCPPassFile c
         = Ret (c, (negb (Semver.LessThan v PGPoolPCPPassFileSince), None)))
  /\ ~ version_below (Semver.New "3.5.0") 3 5 0.
Proof.
  split; [|split].
  - intros W h w c c' ok w' evs Hrun.
    assert (Hres : exists v, version c' = Some v
                   /\ ok = negb (Semver.LessThan v PGPoolPCPPassFileSince)).
    { unfold IsSupportPCPPassFile, Version in Hrun.
      destruct (version c) as [v|] eqn:Hv; simpl in Hrun.
      - exists v. destruct (Semver.LessThan v PGPoolPCPPassFileSince);
          simpl in Hrun; injection Hrun as <- <- _ _; auto.
      - destruct (on_run h w PGPool (Some []) ["--version"]) as [r w1].
        destruct (run_err r); simpl in Hrun; [discriminate|].
        destruct (String.length (Strings.TrimSpace (stderr r)) =? 0);
          simpl in Hrun; [discriminate|].
        destruct (String.length
                    (ExtractVersion c (Strings.TrimSpace (stderr r))) =? 0);
          simpl in Hrun; [discriminate|].
        destruct (Semver.NewVersion _) as [v|e]; simpl in Hrun; [|discriminate].
        exists v. destruct (Semver.LessThan v PGPoolPCPPassFileSince);
          simpl in Hrun; injection Hrun as <- <- _ _; auto. }
    destruct Hres as (v & Hv & ->). exists v. split; [exact Hv|].
    pose proof (LessThan_since v) as Hlt.
    destruct (Semver.LessThan v PGPoolPCPPassFileSince); simpl; split; intros Hb.
    + reflexivity.
    + exfalso. apply Hb, Hlt. reflexivity.
    + apply Hlt in Hb. discriminate.
    + reflexivity.
  - intros c v Hv. unfold IsSupportPCPPassFile, Version. rewrite Hv. simpl.
    destruct (Semver.LessThan v PGPoolPCPPassFileSince); reflexivity.
  - intros Hb. apply LessThan_since in Hb. discriminate.
Qed.

Lemma IsSupportPCPPassFile_threshold_witness :
  exists v : Semver.Version,
    version (set_version (Semver.New "3.5.0") legacy_client) = Some v
    /\ (version_below v 3 5 0 -> true = false)
    /\ (~ version_below v 3 5 0 -> true = true).
Proof.
  apply (proj1 IsSupportPCPPassFile_threshold unit boundary_world tt
           legacy_client (set_version (Semver.New "3.5.0") legacy_client)
           true tt [EvRun PGPool (Some []) ["--version"]]).
  reflexivity.
Defined.

(** C7.  The block of the five lines [Hostname: db1], [Port: 5432],
    [Status: 2], [Weight: 0.5], [Role: primary] decodes, without error, to
    the record of host db1, port 5432, status 2 with the text [Node is up.
    Connections are pooled], weight 0.5 and role primary.  A line whose
    port is not a number leaves the port as it was, a line whose weight is
    not a number leaves the weight as it was, at zero if nothing set them
    before; the decoding goes on with every later line and never fails on
    a buffer. *)
Theorem NodeInfoUnmarshal_decodes
        (ParseFloat : string -> spec_float * option error) :
  (ParseFloat "0.5" = (float_0_5, None) ->
   NodeInfoUnmarshal ParseFloat (Bufio.NewBuffer node_info_sample)
   = ({| Node.Hostname := "db1"; Node.Port := 5432; Node.StatusCode := 2;
         Node.Status := "Node is up. Connections are pooled";
         Node.Weight := float_0_5; Node.Role := "primary" |}, None))
  /\ (forall (ni : Node.NodeInfo) (line : string),
         Strings.Contains (Strings.TrimSpace line) "Port" = true ->
         snd (Strconv.Atoi (ExtractValueFromPCPString (Strings.TrimSpace line)))
         <> None ->
         Node.Port (NodeInfo_line ParseFloat ni line) = Node.Port ni)
  /\ (forall (ni : Node.NodeInfo) (line : string),
         Strings.Contains (Strings.TrimSpace line) "Weight" = true ->
         snd (ParseFloat (ExtractValueFromPCPString (Strings.TrimSpace line)))
         <> None ->
         Node.Weight (NodeInfo_line ParseFloat ni line) = Node.Weight ni)
  /\ (forall s : string,
         NodeInfoUnmarshal ParseFloat (Bufio.NewBuffer s)
         = (fold_left (NodeInfo_line ParseFloat) (complete_lines s) Node.zero,
            None))
  /\ NodeInfoUnmarshal ParseFloat
       (Bufio.NewBuffer ("Port: abc" +:+ nl +:+ "Role: primary" +:+ nl))
     = ({| Node.Hostname := ""; Node.Port := 0; Node.StatusCode := 0;
           Node.Status := ""; Node.Weight := S754_zero false;
           Node.Role := "primary" |}, None).
Proof.
  split; [|split; [|split; [|split]]].
  - intros Hhalf. rewrite NodeInfoUnmarshal_lines.
    vm_compute. rewrite Hhalf. reflexivity.
  - intros ni line Hport Hbad. unfold NodeInfo_line, and_then.
    rewrite Hport.
    destruct (Strconv.Atoi _) as [portInt [err|]]; [|now elim Hbad].
    destruct (Strings.Contains _ "Hostname"); reflexivity.
  - intros ni line Hweight Hbad. unfold NodeInfo_line, and_then.
    rewrite Hweight.
    destruct (ParseFloat _) as [weightFloat [err|]]; [|now elim Hbad].
    repeat match goal with
           | |- context [if Strings.Contains ?a ?b then _ else _] =>
             destruct (Strings.Contains a b)
           | |- context [Strconv.Atoi ?a] =>
             destruct (Strconv.Atoi a) as [? [?|]]
           end; reflexivity.
  - intros s. rewrite NodeInfoUnmarshal_lines. reflexivity.
  - rewrite NodeInfoUnmarshal_lines. vm_compute. reflexivity.
Qed.

Lemma NodeInfoUnmarshal_decodes_witness :
  NodeInfoUnmarshal ParseFloat_decimal (Bufio.NewBuffer node_info_sample)
  = ({| Node.Hostname := "db1"; Node.Port := 5432; Node.StatusCode := 2;
        Node.Status := "Node is up. Connections are pooled";
        Node.Weight := float_0_5; Node.Role := "primary" |}, None)
  /\ Node.Port (NodeInfo_line ParseFloat_decimal Node.zero "Port: abc") = 0%Z
  /\ Node.Weight (NodeInfo_line ParseFloat_decimal Node.zero "Weight: heavy")
     = S754_zero false.
Proof.
  destruct (NodeInfoUnmarshal_decodes ParseFloat_decimal) as (Ha & Hb & Hc & _).
  split; [apply Ha; reflexivity|].
  split.
  - apply (Hb Node.zero "Port: abc"); [reflexivity | discriminate].
  - apply (Hc Node.zero "Weight: heavy"); [reflexivity | discriminate].
Defined.

(** C8.  [QuorumStateToCode] gives 1 for [QUORUM EXIST], 0 for [QUORUM IS
    ON THE EDGE], -1 for [QUORUM ABSENT], -2 for [NO MASTER NODE], -3 for
    [UNKNOWN], and -3, the code of the unknown state, for every other
    text. *)
Theorem QuorumStateToCode_total :
  QuorumStateToCode "QUORUM EXIST" = 1%Z
  /\ QuorumStateToCode "QUORUM IS ON THE EDGE" = 0%Z
  /\ QuorumStateToCode "QUORUM ABSENT" = (-1)%Z
  /\ QuorumStateToCode "NO MASTER NODE" = (-2)%Z
  /\ QuorumStateToCode "UNKNOWN" = (-3)%Z
  /\ QuorumStateUnknown = (-3)%Z
  /\ forall state : string,
       state <> "QUORUM EXIST" -> state <> "QUORUM IS ON THE EDGE" ->
       state <> "QUORUM ABSENT" -> state <> "NO MASTER NODE" ->
       state <> "UNKNOWN" ->
       QuorumStateToCode state = (-3)%Z.
Proof.
  do 6 (split; [vm_compute; reflexivity|]).
  intros state H1 H2 H3 H4 H5.
  unfold QuorumStateToCode, quorumStateToInt. simpl.
  rewrite !lookup_insert_ne by congruence.
  rewrite lookup_empty. reflexivity.
Qed.

Lemma QuorumStateToCode_total_witness :
  QuorumStateToCode "quorum exist" = (-3)%Z.
Proof.
  apply (proj2 (proj2 (proj2 (proj2 (proj2 (proj2 QuorumStateToCode_total))))));
    discriminate.
Defined.




(** C10.  For each of the three decoders, a text after the last newline
    that has no newline of its own changes nothing: the input decodes as
    the input cut after its last newline, and an input without any
    newline decodes as the empty input, to the zero record or to no
    rows. *)
Theorem unterminated_last_line_discarded
        (ParseFloat : string -> spec_float * option error)
        (pre tail : string) :
  Strings.Contains tail nl = false ->
  (NodeInfoUnmarshal ParseFloat (Bufio.NewBuffer ((pre +:+ nl) +:+ tail))
   = NodeInfoUnmarshal ParseFloat (Bufio.NewBuffer (pre +:+ nl))
   /\ WatchdogInfoUnmarshal (Bufio.NewBuffer ((pre +:+ nl) +:+ tail))
      = WatchdogInfoUnmarshal (Bufio.NewBuffer (pre +:+ nl))
   /\ ProcInfoUnmarshal (Bufio.NewBuffer ((pre +:+ nl) +:+ tail))
      = ProcInfoUnmarshal (Bufio.NewBuffer (pre +:+ nl)))
  /\ (NodeInfoUnmarshal ParseFloat (Bufio.NewBuffer tail) = (Node.zero, None)
      /\ WatchdogInfoUnmarshal (Bufio.NewBuffer tail) = (Watchdog.zero, None)
      /\ ProcInfoUnmarshal (Bufio.NewBuffer tail) = ([], None)).
Proof.
  intros Ht.
  rewrite !NodeInfoUnmarshal_lines, !WatchdogInfoUnmarshal_lines,
    !ProcInfoUnmarshal_lines.
  simpl. rewrite (complete_lines_app (pre +:+ nl) tail Ht).
  unfold complete_lines. rewrite (split_lines_unterminated tail Ht). simpl.
  repeat split.
Qed.

Lemma unterminated_last_line_discarded_witness :
  ProcInfoUnmarshal
    (Bufio.NewBuffer (("a b c d e f g h i j k l 1" +:+ nl)
                      +:+ "m n o p q r s t u v w x 1"))
  = ProcInfoUnmarshal (Bufio.NewBuffer ("a b c d e f g h i j k l 1" +:+ nl)).
Proof.
  apply (unterminated_last_line_discarded ParseFloat_decimal
           "a b c d e f g h i j k l 1" "m n o p q r s t u v w x 1").
  reflexivity.
Defined.

(** ** Further properties *)

(** *** The process summary *)

Lemma wrap_int_small (z : Z) : (- 2 ^ 63 <= z < 2 ^ 63)%Z -> wrap_int z = z.
Proof.
  intros H. unfold wrap_int. rewrite Z.mod_small; lia.
Qed.

Lemma increment_lookup (m : gmap string Z) (database d : string) (n : Z) :
  m !! database = tally n -> (0 <= n < 2 ^ 63 - 1)%Z ->
  increment database m !! d
  = if String.eqb database d then Some (n + 1)%Z else m !! d.
Proof.
  intros Hm Hn. unfold increment.
  destruct (String.eqb_spec database d) as [->|Hne].
  - rewrite lookup_insert_eq. f_equal.
    unfold tally in Hm. destruct (n =? 0)%Z eqn:E.
    + apply Z.eqb_eq in E. subst n. rewrite Hm. rewrite lookup_insert_eq.
      reflexivity.
    + rewrite Hm. rewrite Hm. simpl. apply wrap_int_small. lia.
  - rewrite lookup_insert_ne by exact Hne.
    destruct (m !! database); [reflexivity|].
    rewrite lookup_insert_ne by exact Hne. reflexivity.
Qed.

Lemma rows_of_snoc d b l r :
  rows_of d b (l ++ [r])
  = (rows_of d b l
     + if String.eqb (Proc.Database r) d && Bool.eqb (Proc.Connected r) b
       then 1 else 0)%Z.
Proof.
  unfold rows_of. rewrite List.filter_app, length_app. simpl.
  destruct (String.eqb (Proc.Database r) d && Bool.eqb (Proc.Connected r) b);
    simpl; lia.
Qed.

Lemma rows_of_bounds d b l : (0 <= rows_of d b l <= Z.of_nat (length l))%Z.
Proof.
  unfold rows_of. pose proof (List.filter_length_le
    (fun r => String.eqb (Proc.Database r) d && Bool.eqb (Proc.Connected r) b) l).
  lia.
Qed.

Lemma Add_tallies p l r :
  (Z.of_nat (length l) < 2 ^ 63 - 1)%Z ->
  tallies p l ->
  tallies (Add p (Proc.Database r) (Proc.Connected r)) (l ++ [r]).
Proof.
  intros Hlen Hp d. rewrite !rows_of_snoc.
  pose proof (rows_of_bounds (Proc.Database r) true l) as Hb1.
  pose proof (rows_of_bounds (Proc.Database r) false l) as Hb2.
  pose proof (rows_of_bounds d true l) as Hd1.
  pose proof (rows_of_bounds d false l) as Hd2.
  destruct (Hp d) as [Ha Hi].
  destruct (Hp (Proc.Database r)) as [Ha' Hi'].
  unfold Add. destruct (Proc.Connected r); simpl.
  - rewrite (increment_lookup _ _ d _ Ha') by lia.
    rewrite Bool.andb_false_r, Z.add_0_r. split; [|exact Hi].
    destruct (String.eqb_spec (Proc.Database r) d) as [->|Hne]; simpl.
    + unfold tally.
      destruct (Z.eqb_spec (rows_of d true l + 1) 0); [lia|reflexivity].
    + rewrite Z.add_0_r. exact Ha.
  - rewrite (increment_lookup _ _ d _ Hi') by lia.
    rewrite Bool.andb_false_r, Z.add_0_r. split; [exact Ha|].
    destruct (String.eqb_spec (Proc.Database r) d) as [->|Hne]; simpl.
    + unfold tally.
      destruct (Z.eqb_spec (rows_of d false l + 1) 0); [lia|reflexivity].
    + rewrite Z.add_0_r. exact Hi.
Qed.

Lemma fold_Add_tallies l : forall l0 p,
  (Z.of_nat (length (l0 ++ l)) < 2 ^ 63)%Z ->
  tallies p l0 ->
  tallies (fold_left (fun summary procInfo =>
                        Add summary (Proc.Database procInfo)
                            (Proc.Connected procInfo)) l p) (l0 ++ l).
Proof.
  induction l as [|r l IH]; intros l0 p Hlen Hp; simpl.
  - rewrite app_nil_r. exact Hp.
  - replace (l0 ++ r :: l) with ((l0 ++ [r]) ++ l) in *
      by (rewrite <- app_assoc; reflexivity).
    apply IH; [exact Hlen|].
    apply Add_tallies; [|exact Hp].
    rewrite !length_app in Hlen. simpl in Hlen. lia.
Qed.

(** X1.  The summary of an inventory of fewer than 2^63 rows holds, for
    every database, the number of its connected rows in [Active] and the
    number of its other rows in [Inactive]; a database has an entry in a
    map exactly when that number is not zero. *)
Theorem ProcInfoSummary_counts (c : Client) (pi : list Proc.ProcInfo) (d : string) :
  (Z.of_nat (length pi) < 2 ^ 63)%Z ->
  Summary.Active (ProcInfoSummary c pi) !! d = tally (rows_of d true pi)
  /\ Summary.Inactive (ProcInfoSummary c pi) !! d = tally (rows_of d false pi).
Proof.
  intros Hlen. unfold ProcInfoSummary.
  apply (fold_Add_tallies pi [] NewProcInfoSummary Hlen).
  intros d'. split; reflexivity.
Qed.

Lemma ProcInfoSummary_counts_witness :
  Summary.Active (ProcInfoSummary legacy_client three_rows) !! "app" = Some 2%Z
  /\ Summary.Inactive (ProcInfoSummary legacy_client three_rows) !! "app"
     = Some 1%Z.
Proof.
  apply (ProcInfoSummary_counts legacy_client three_rows "app"). reflexivity.
Defined.

(** *** The status table *)

(** X2.  [NodeStatusCodeToString] gives the four labels of the codes 0 to
    3 and [Unknown node status] for every other code, negative ones
    included. *)
Theorem NodeStatusCodeToString_total :
  NodeStatusCodeToString 0 = "Initialization"
  /\ NodeStatusCodeToString 1 = "Node is up. No connections yet"
  /\ NodeStatusCodeToString 2 = "Node is up. Connections are pooled"
  /\ NodeStatusCodeToString 3 = "Node is down"
  /\ forall statusID : Z,
       (statusID < 0 \/ 3 < statusID)%Z ->
       NodeStatusCodeToString statusID = "Unknown node status".
Proof.
  do 4 (split; [vm_compute; reflexivity|]).
  intros statusID H.
  unfold NodeStatusCodeToString, nodeStatusToString. simpl.
  rewrite !lookup_insert_ne by lia.
  rewrite lookup_empty. reflexivity.
Qed.

Lemma NodeStatusCodeToString_total_witness :
  NodeStatusCodeToString (-1) = "Unknown node status".
Proof.
  apply (proj2 (proj2 (proj2 (proj2 NodeStatusCodeToString_total)))).
  left. reflexivity.
Defined.

(** *** The version probe *)

Lemma Version_run {W : Type} (h : World W) (w w' : W) (c c' : Client)
      (res : Semver.Version + error) (evs : list event) :
  perform h w (Version c) = ((c', res), w', evs) ->
  match version c with
  | Some v => c' = c /\ res = inl v /\ evs = [] /\ w' = w
  | None =>
    evs = [probe]
    /\ match res with
       | inl v => c' = set_version v c
       | inr e => c' = c
       end
  end.
Proof.
  unfold Version, probe.
  destruct (version c) as [v|]; simpl.
  - intros H. injection H as <- <- <- <-. auto.
  - destruct (on_run h w PGPool (Some []) ["--version"]) as [r w1].
    destruct (run_err r) as [e|]; simpl.
    { intros H. injection H as <- <- _ <-. auto. }
    destruct (String.length (Strings.TrimSpace (stderr r)) =? 0); simpl.
    { intros H. injection H as <- <- _ <-. auto. }
    destruct (String.length (ExtractVersion _ _) =? 0); simpl.
    { intros H. injection H as <- <- _ <-. auto. }
    destruct (Semver.NewVersion _) as [v|e]; simpl;
      intros H; injection H as <- <- _ <-; auto.
Qed.

(** X3.  [Version] resolves the version once: after a call that gave a
    version the client holds it, only its version field has changed, and
    a further call gives the same version without running anything.  A
    call that fails leaves the client as it was, so the next call probes
    again. *)
Theorem Version_memoizes
        (W : Type) (h : World W) (w w' : W) (c c' : Client)
        (res : Semver.Version + error) (evs : list event) :
  perform h w (Version c) = ((c', res), w', evs) ->
  match res with
  | inl v =>
    version c' = Some v
    /\ Version c' = Ret (c', inl v)
    /\ (c' = c \/ (version c = None /\ c' = set_version v c))
  | inr e => c' = c /\ version c = None /\ evs = [probe]
  end.
Proof.
  intros H. apply Version_run in H.
  destruct (version c) as [v0|] eqn:Hv.
  - destruct H as (-> & -> & _ & _).
    split; [exact Hv|]. split; [|auto].
    unfold Version. rewrite Hv. reflexivity.
  - destruct H as (Hev & H). destruct res as [v|e].
    + subst c'. split; [reflexivity|]. split; [reflexivity|]. auto.
    + auto.
Qed.

Lemma Version_memoizes_witness :
  version (set_version (Semver.New "3.5.0") legacy_client)
  = Some (Semver.New "3.5.0")
  /\ Version (set_version (Semver.New "3.5.0") legacy_client)
     = Ret (set_version (Semver.New "3.5.0") legacy_client,
            inl (Semver.New "3.5.0"))
  /\ (set_version (Semver.New "3.5.0") legacy_client = legacy_client
      \/ (version legacy_client = None
          /\ set_version (Semver.New "3.5.0") legacy_client
             = set_version (Semver.New "3.5.0") legacy_client)).
Proof.
  apply (Version_memoizes unit boundary_world tt tt legacy_client
           (set_version (Semver.New "3.5.0") legacy_client)
           (inl (Semver.New "3.5.0")) [probe]).
  reflexivity.
Defined.

(** *** The construction of a client, outcome by outcome *)

Lemma NewClient_run {W : Type} (h : World W) (w w' : W) (o : Options)
      (res : Client + error) (evs : list event) :
  perform h w (NewClient o) = (res, w', evs) ->
  exists (c0 : Client) (vres : Semver.Version + error) (w1 : W),
    perform h w (Version (emptyClient o)) = ((c0, vres), w1, [probe])
    /\ match vres with
       | inr e => res = inr e /\ evs = [probe]
       | inl v =>
         c0 = set_version v (emptyClient o)
         /\ exists (c2 : Client) (verr : option error) (w2 : W)
                   (ev2 : list event),
             perform h w1 (Validate (with_PassFile o c0))
             = ((c2, verr), w2, ev2)
             /\ match verr with
                | Some e => res = inr e /\ evs = probe :: ev2
                | None =>
                  if Semver.LessThan v PGPoolPCPPassFileSince
                  then res = inl c2 /\ evs = probe :: ev2
                  else
                    exists (c3 : Client) (terr : option error) (w3 : W)
                           (ev3 : list event),
                      perform h w2
                        (createPCPTempFile (set_pcpPassFileSupport true c2))
                      = ((c3, terr), w3, ev3)
                      /\ evs = probe :: ev2 ++ ev3
                      /\ res = match terr with
                               | Some e => inr e
                               | None => inl c3
                               end
                end
       end.
Proof.
  intros H. unfold NewClient, IsSupportPCPPassFile in H.
  rewrite !perform_bind in H.
  destruct (perform h w (Version (emptyClient o))) as [[[c0 vres] w1] ev1]
    eqn:Hver.
  pose proof (Version_run h w w1 _ c0 vres ev1 Hver) as Hrun.
  simpl in Hrun. destruct Hrun as (-> & Hc0).
  exists c0, vres, w1. split; [reflexivity|].
  simpl in H. destruct vres as [v|e]; simpl in H.
  2:{ injection H as <- _ <-. auto. }
  split; [exact Hc0|]. fold (with_PassFile o c0) in H.
  destruct (Semver.LessThan v PGPoolPCPPassFileSince); simpl in H;
    rewrite perform_bind in H; fold (with_PassFile o c0) in H;
    destruct (perform h w1 (Validate (with_PassFile o c0)))
      as [[[c2 verr] w2] ev2]; simpl in H;
    exists c2, verr, w2, ev2; (split; [reflexivity|]).
  - destruct verr as [e|]; simpl in H; injection H as <- _ <-;
      rewrite app_nil_r; auto.
  - destruct verr as [e|]; simpl in H.
    + injection H as <- _ <-. rewrite app_nil_r; auto.
    + rewrite perform_bind in H.
      destruct (perform h w2 (createPCPTempFile (set_pcpPassFileSupport true c2)))
        as [[[c3 terr] w3] ev3]; simpl in H.
      exists c3, terr, w3, ev3. split; [reflexivity|].
      destruct terr as [e|]; simpl in H; injection H as <- _ <-;
        rewrite app_nil_r; auto.
Qed.

Lemma Validate_run {W : Type} (h : World W) (w w' : W) (c c' : Client)
      (err : option error) (evs : list event) :
  perform h w (Validate c) = ((c', err), w', evs) ->
  (evs = [] \/ (pcpPassFile c <> "" /\ evs = [EvStat (pcpPassFile c)]))
  /\ match err with
     | Some _ => c' = c
     | None =>
       c' = (if negb (String.length (pcpPassFile c) =? 0)
             then set_pcpPassFileUser true c else c)
       /\ Hostname (options c) <> "" /\ Username (options c) <> ""
       /\ (0 < Port (options c))%Z
       /\ (pcpPassFile c <> "" \/ Password (options c) <> "")
     end.
Proof.
  unfold Validate.
  destruct (String.length (Hostname (options c)) =? 0) eqn:Hh.
  { intros H. injection H as <- <- _ <-. auto. }
  destruct (String.length (Username (options c)) =? 0) eqn:Hu.
  { intros H. injection H as <- <- _ <-. auto. }
  destruct (Port (options c) <=? 0)%Z eqn:Hp.
  { intros H. injection H as <- <- _ <-. auto. }
  assert (Hh' : Hostname (options c) <> "").
  { intros E. rewrite E in Hh. discriminate. }
  assert (Hu' : Username (options c) <> "").
  { intros E. rewrite E in Hu. discriminate. }
  apply Z.leb_gt in Hp.
  destruct (String.length (pcpPassFile c) =? 0) eqn:Hf; simpl.
  - destruct (String.length (Password (options c)) =? 0) eqn:Hpw.
    { intros H. injection H as <- <- _ <-. auto. }
    intros H. injection H as <- <- _ <-. split; [auto|].
    repeat split; auto. right. intros E. rewrite E in Hpw. discriminate.
  - assert (Hf' : pcpPassFile c <> "").
    { intros E. rewrite E in Hf. discriminate. }
    destruct (on_stat h w (pcpPassFile c)) as [st w2].
    destruct st as [mode|e [|]]; simpl.
    + destruct (IsDir mode); simpl.
      { intros H. injection H as <- <- _ <-. auto. }
      destruct (negb (mode =? mode_0600)%N); simpl;
        intros H; injection H as <- <- _ <-; split; auto.
      repeat split; auto.
    + intros H. injection H as <- <- _ <-. auto.
    + intros H. injection H as <- <- _ <-. auto.
Qed.

Lemma createPCPTempFile_run {W : Type} (h : World W) (w w' : W) (c c' : Client)
      (err : option error) (evs : list event) :
  perform h w (createPCPTempFile c) = ((c', err), w', evs) ->
  if pcpPassFileUser c then c' = c /\ err = None /\ evs = []
  else
    (exists e, evs = [EvTempFile "" "pgpool2" (inr e)]
               /\ err = Some e /\ c' = c)
    \/ exists f,
        exists rest,
          evs = EvTempFile "" "pgpool2" (inl f)
                :: EvWriteString f (credentials_line (options c)) :: rest
          /\ ((err <> None /\ c' = c
               /\ (rest = [] \/ rest = [EvChmod f mode_0600]))
              \/ (err = None /\ rest = [EvChmod f mode_0600]
                  /\ c' = set_pcpPassFile (Name f) (set_pcpPassTempFile f c))).
Proof.
  unfold createPCPTempFile, credentials_line.
  destruct (pcpPassFileUser c); simpl.
  - intros H. injection H as <- <- _ <-. auto.
  - destruct (on_tempfile h w "" "pgpool2") as [[f|e] w2]; simpl.
    2:{ intros H. injection H as <- <- _ <-. left. exists e. auto. }
    destruct (on_write h w2 f _) as [[e|] w3]; simpl.
    { intros H. injection H as <- <- _ <-. right. exists f, [].
      split; [reflexivity|]. left. repeat split; auto; discriminate. }
    destruct (on_chmod h w3 f mode_0600) as [[e|] w4]; simpl;
      intros H; injection H as <- <- _ <-; right;
      exists f, [EvChmod f mode_0600]; (split; [reflexivity|]).
    + left. repeat split; auto; discriminate.
    + right. auto.
Qed.

Lemma with_PassFile_fields (o : Options) (c : Client) :
  pcpPassFile c = "" -> pcpPassFileUser c = false ->
  options (with_PassFile o c) = options c
  /\ version (with_PassFile o c) = version c
  /\ pcpPassFileSupport (with_PassFile o c) = pcpPassFileSupport c
  /\ pcpPassTempFile (with_PassFile o c) = pcpPassTempFile c
  /\ pcpPassFile (with_PassFile o c) = PassFile o
  /\ (pcpPassFileUser (with_PassFile o c) = true <-> PassFile o <> "").
Proof.
  intros Hf Hu. unfold with_PassFile.
  destruct (String.length (PassFile o) =? 0) eqn:E; simpl.
  - apply length_eqb_0 in E. rewrite E, Hf, Hu.
    repeat split; auto; try discriminate; congruence.
  - repeat split; auto. intros _ E'. rewrite E' in E. discriminate.
Qed.

(** X4.  A client that [NewClient] hands back was built from valid
    options: a host name, a user name, a positive port, and a credentials
    file or a password.  It holds the options and the resolved version,
    its strategy is the file strategy exactly when that version is not
    below 3.5.0, and a credentials file named in the options is the one
    it uses. *)
Theorem NewClient_accepts
        (W : Type) (h : World W) (w : W) (o : Options) (c : Client) :
  result h w (NewClient o) = inl c ->
  options c = o
  /\ Hostname o <> "" /\ Username o <> "" /\ (0 < Port o)%Z
  /\ (PassFile o <> "" \/ Password o <> "")
  /\ (exists v : Semver.Version,
         version c = Some v
         /\ (pcpPassFileSupport c = true <-> ~ version_below v 3 5 0))
  /\ (PassFile o <> "" ->
      pcpPassFile c = PassFile o /\ pcpPassTempFile c = None).
Proof.
  unfold result.
  destruct (perform h w (NewClient o)) as [[res w'] evs] eqn:Hrun. simpl.
  intros ->.
  destruct (NewClient_run h w w' o _ evs Hrun) as (c0 & vres & w1 & _ & Hv).
  destruct vres as [v|e]; [|destruct Hv; discriminate].
  destruct Hv as (-> & c2 & verr & w2 & ev2 & Hval & Hrest).
  apply Validate_run in Hval. destruct Hval as (_ & Hval).
  destruct verr as [e|]; [destruct Hrest; discriminate|].
  destruct Hval as (Hc2 & Hh & Hu & Hp & Hpw).
  destruct (with_PassFile_fields o (set_version v (emptyClient o))
              eq_refl eq_refl) as (Ho & Hver & Hsup & Htemp & Hfile & Huser1).
  simpl in Ho, Hver, Hsup, Htemp.
  set (c1 := with_PassFile o (set_version v (emptyClient o))) in *.
  rewrite Ho, Hfile in *.
  assert (H2 : options c2 = o /\ version c2 = Some v
               /\ pcpPassFileSupport c2 = false
               /\ pcpPassFile c2 = PassFile o /\ pcpPassTempFile c2 = None
               /\ (PassFile o <> "" -> pcpPassFileUser c2 = true)).
  { rewrite Hc2. destruct (String.length (PassFile o) =? 0) eqn:E; simpl.
    - repeat split; auto. intros Hne. apply length_eqb_0 in E. contradiction.
    - repeat split; auto. }
  destruct H2 as (Ho2 & Hv2 & Hs2 & Hf2 & Ht2 & Hu2).
  pose proof (LessThan_since v) as Hlt.
  destruct (Semver.LessThan v PGPoolPCPPassFileSince).
  - destruct Hrest as (Hres & _). injection Hres as <-.
    repeat split; auto.
    exists v. split; [exact Hv2|]. rewrite Hs2. split; [discriminate|].
    intros Hn. exfalso. apply Hn, Hlt. reflexivity.
  - destruct Hrest as (c3 & terr & w3 & ev3 & Htmp & _ & Hres).
    apply createPCPTempFile_run in Htmp. simpl in Htmp.
    destruct terr as [e|]; [discriminate|]. injection Hres as <-.
    assert (Hnb : ~ version_below v 3 5 0).
    { intros Hb. apply Hlt in Hb. discriminate. }
    destruct (pcpPassFileUser c2) eqn:Huser.
    + destruct Htmp as (-> & _ & _). simpl.
      repeat split; auto. exists v. split; [exact Hv2|]. split; auto.
    + destruct Htmp as [(e & _ & He & _)|(f & rest & _ & Hcase)];
        [discriminate|].
      destruct Hcase as [(He & _)|(_ & _ & ->)]; [now elim He|]. simpl.
      assert (Hempty : ~ PassFile o <> "").
      { intros Hne. discriminate (Hu2 Hne). }
      repeat split; auto; try (intros; contradiction).
      exists v. split; [exact Hv2|]. split; auto.
Qed.

Lemma NewClient_accepts_witness :
  options sample_client = sample_options
  /\ Hostname sample_options <> "" /\ Username sample_options <> ""
  /\ (0 < Port sample_options)%Z
  /\ (PassFile sample_options <> "" \/ Password sample_options <> "")
  /\ (exists v : Semver.Version,
         version sample_client = Some v
         /\ (pcpPassFileSupport sample_client = true
             <-> ~ version_below v 3 5 0))
  /\ (PassFile sample_options <> "" ->
      pcpPassFile sample_client = PassFile sample_options
      /\ pcpPassTempFile sample_client = None).
Proof.
  apply (NewClient_accepts unit probe_only_world tt sample_options sample_client).
  reflexivity.
Defined.

(** X5.  A client built without a credentials file of the caller, for a
    pooler that supports one, owns a temporary file: the construction ran
    the version probe, created the file, wrote the one line
    host:port:user:password into it and set its mode to 0600, in this
    order and nothing else; every PCP command of the client then names
    that file in PCPPASSFILE, its whole environment. *)
Theorem NewClient_credentials_file
        (W : Type) (h : World W) (w : W) (o : Options) (c : Client) :
  result h w (NewClient o) = inl c ->
  PassFile o = "" ->
  pcpPassFileSupport c = true ->
  exists f : File,
    events h w (NewClient o)
    = [probe; EvTempFile "" "pgpool2" (inl f);
       EvWriteString f (credentials_line o); EvChmod f mode_0600]
    /\ pcpPassTempFile c = Some f
    /\ pcpPassFile c = Name f
    /\ forall arg : list string,
         fst (execPCPCommand_args c arg) = Some ["PCPPASSFILE=" +:+ Name f].
Proof.
  unfold result, events.
  destruct (perform h w (NewClient o)) as [[res w'] evs] eqn:Hrun. simpl.
  intros -> Hpf Hsup.
  destruct (NewClient_run h w w' o _ evs Hrun) as (c0 & vres & w1 & _ & Hv).
  destruct vres as [v|e]; [|destruct Hv; discriminate].
  destruct Hv as (-> & c2 & verr & w2 & ev2 & Hval & Hrest).
  destruct (with_PassFile_fields o (set_version v (emptyClient o))
              eq_refl eq_refl) as (Ho & Hver & Hs1 & Htemp & Hfile & Huser1).
  simpl in Ho, Hver, Hs1, Htemp.
  set (c1 := with_PassFile o (set_version v (emptyClient o))) in *.
  apply Validate_run in Hval. destruct Hval as (Hev2 & Hval).
  rewrite Hfile, Hpf in Hev2, Hval.
  destruct Hev2 as [->|(Hne & _)]; [|now elim Hne].
  destruct verr as [e|]; [destruct Hrest; discriminate|].
  destruct Hval as (Hc2 & _). simpl in Hc2. subst c2.
  assert (Hu1 : pcpPassFileUser c1 = false).
  { destruct (pcpPassFileUser c1); [|reflexivity].
    exfalso. apply (proj1 Huser1); [reflexivity | exact Hpf]. }
  destruct (Semver.LessThan v PGPoolPCPPassFileSince).
  - destruct Hrest as (Hres & _). injection Hres as <-. congruence.
  - destruct Hrest as (c3 & terr & w3 & ev3 & Htmp & -> & Hres).
    apply createPCPTempFile_run in Htmp. simpl in Htmp.
    rewrite Hu1, Ho in Htmp.
    destruct terr as [e|]; [discriminate|]. injection Hres as <-.
    destruct Htmp as [(e & _ & He & _)|(f & rest & -> & Hcase)];
      [discriminate|].
    destruct Hcase as [(He & _)|(_ & -> & ->)]; [now elim He|].
    exists f. simpl. repeat split.
Qed.

Lemma NewClient_credentials_file_witness :
  exists f : File,
    events probe_only_world tt (NewClient sample_options)
    = [probe; EvTempFile "" "pgpool2" (inl f);
       EvWriteString f (credentials_line sample_options);
       EvChmod f mode_0600]
    /\ pcpPassTempFile sample_client = Some f
    /\ pcpPassFile sample_client = Name f
    /\ forall arg : list string,
         fst (execPCPCommand_args sample_client arg)
         = Some ["PCPPASSFILE=" +:+ Name f].
Proof.
  apply (NewClient_credentials_file unit probe_only_world tt sample_options
           sample_client); reflexivity.
Defined.

(** X6.  [NewClient] never removes a file, whatever the world answers.
    So a temporary credentials file that was created stays on disk when a
    later step fails and no client is handed back: in a world whose
    [Chmod] fails the construction ends with that error after it created
    and wrote the file. *)
Theorem NewClient_never_removes :
  (forall (W : Type) (h : World W) (w : W) (o : Options),
      List.filter is_remove (events h w (NewClient o)) = [])
  /\ (result chmod_fails_world tt (NewClient sample_options)
      = inr (External "chmod: operation not permitted")
      /\ created_files (events chmod_fails_world tt (NewClient sample_options))
         = [ {| Name := "/tmp/pgpool2000" |} ]).
Proof.
  split; [|split; reflexivity].
  intros W h w o. unfold events.
  destruct (perform h w (NewClient o)) as [[res w'] evs] eqn:Hrun. simpl.
  destruct (NewClient_run h w w' o _ evs Hrun) as (c0 & vres & w1 & _ & Hv).
  destruct vres as [v|e]; [|destruct Hv as (_ & ->); reflexivity].
  destruct Hv as (_ & c2 & verr & w2 & ev2 & Hval & Hrest).
  apply Validate_run in Hval. destruct Hval as (Hev2 & _).
  assert (H2 : List.filter is_remove ev2 = []).
  { destruct Hev2 as [->|(_ & ->)]; reflexivity. }
  destruct verr as [e|].
  { destruct Hrest as (_ & ->). simpl. exact H2. }
  destruct (Semver.LessThan v PGPoolPCPPassFileSince).
  { destruct Hrest as (_ & ->). simpl. exact H2. }
  destruct Hrest as (c3 & terr & w3 & ev3 & Htmp & -> & _).
  apply createPCPTempFile_run in Htmp.
  simpl. rewrite List.filter_app, H2. simpl.
  destruct (pcpPassFileUser (set_pcpPassFileSupport true c2)).
  - destruct Htmp as (_ & _ & ->). reflexivity.
  - destruct Htmp as [(e & -> & _)|(f & rest & -> & Hcase)]; [reflexivity|].
    destruct Hcase as [(_ & _ & [->| ->])|(_ & -> & _)]; reflexivity.
Qed.

(** X7.  [Validate] marks every client that has a credentials file as
    caller-owned when it succeeds.  Called again on a client that owns a
    temporary file, it therefore disowns the file: the file is still
    recorded, but [Clean] no longer removes it. *)
Theorem Validate_disowns
        (W : Type) (h : World W) (w w' : W) (c c' : Client)
        (evs : list event) :
  pcpPassFile c <> "" ->
  perform h w (Validate c) = ((c', None), w', evs) ->
  pcpPassFileUser c' = true
  /\ pcpPassTempFile c' = pcpPassTempFile c
  /\ Clean c' = Ret None.
Proof.
  intros Hne Hval. apply Validate_run in Hval. destruct Hval as (_ & Hc' & _).
  destruct (String.length (pcpPassFile c) =? 0) eqn:E.
  { apply length_eqb_0 in E. contradiction. }
  simpl in Hc'. subst c'. simpl. repeat split.
Qed.

Lemma Validate_disowns_witness :
  pcpPassFileUser (set_pcpPassFileUser true sample_client) = true
  /\ pcpPassTempFile (set_pcpPassFileUser true sample_client)
     = pcpPassTempFile sample_client
  /\ Clean (set_pcpPassFileUser true sample_client) = Ret None.
Proof.
  apply (Validate_disowns unit owner_only_world tt tt sample_client
           (set_pcpPassFileUser true sample_client)
           [EvStat "/tmp/pgpool2000"]).
  - discriminate.
  - reflexivity.
Defined.

(** *** The operations *)

Lemma execPCPCommand_run {W : Type} (h : World W) (w : W) (c : Client)
      (cmd : string) (arg : list string) :
  perform h w (execPCPCommand c cmd arg)
  = (let env := fst (execPCPCommand_args c arg) in
     let args := snd (execPCPCommand_args c arg) in
     let r := fst (on_run h w cmd env args) in
     ((stdout r, wrapped r), snd (on_run h w cmd env args),
      [EvRun cmd env args])).
Proof.
  unfold execPCPCommand, wrapped.
  destruct (execPCPCommand_args c arg) as [env args]. simpl.
  destruct (on_run h w cmd env args) as [r w1]. simpl.
  destruct (run_err r); reflexivity.
Qed.

(** X8.  [ExecProcInfo] runs one command, pcp_proc_info with [--all].  It
    fails exactly when that command fails, then with no rows and the
    wrapped error; otherwise it gives the rows of the complete lines of
    the standard output, and decoding adds no error. *)
Theorem ExecProcInfo_result
        (W : Type) (h : World W) (w w1 : W) (c : Client) (r : RunResult) :
  on_run h w PCPProcInfo (fst (execPCPCommand_args c ["--all"]))
         (snd (execPCPCommand_args c ["--all"])) = (r, w1) ->
  perform h w (ExecProcInfo c)
  = (match run_err r with
     | Some _ => ([], wrapped r)
     | None =>
       (map row_of (List.filter accepted_row (complete_lines (stdout r))), None)
     end,
     w1,
     [EvRun PCPProcInfo (fst (execPCPCommand_args c ["--all"]))
            (snd (execPCPCommand_args c ["--all"]))]).
Proof.
  intros Hrun. unfold ExecProcInfo. rewrite perform_bind, execPCPCommand_run.
  simpl. rewrite Hrun. simpl. unfold wrapped.
  destruct (run_err r) as [e|]; simpl; [reflexivity|].
  rewrite ProcInfoUnmarshal_lines, ProcInfo_lines_rows. reflexivity.
Qed.

Lemma ExecProcInfo_result_witness :
  perform failing_world tt (ExecProcInfo legacy_client)
  = (([], Some (Errorf_v "" (External "exit status 1") " (out)")), tt,
     [EvRun PCPProcInfo None ["--all"; "5"; "h"; "10"; "u"; "p"]]).
Proof.
  apply (ExecProcInfo_result unit failing_world tt tt legacy_client failed_run).
  reflexivity.
Defined.

(** X9.  [ExecNodeInfo] and [ExecWatchdogInfo] each run one command and
    fail exactly when it fails, then with the zero record and the wrapped
    error; otherwise the record is the fold of the decoder's loop body
    over the complete lines of the standard output, without error. *)
Theorem ExecNodeInfo_ExecWatchdogInfo_result
        (ParseFloat : string -> spec_float * option error)
        (W : Type) (h : World W) (w : W) (c : Client) (nodeID : Z) :
  (forall (r : RunResult) (w1 : W),
      on_run h w PCPNodeInfo
             (fst (execPCPCommand_args c (node_info_args c nodeID)))
             (snd (execPCPCommand_args c (node_info_args c nodeID))) = (r, w1) ->
      perform h w (ExecNodeInfo ParseFloat c nodeID)
      = (match run_err r with
         | Some _ => (Node.zero, wrapped r)
         | None =>
           (fold_left (NodeInfo_line ParseFloat) (complete_lines (stdout r))
                      Node.zero, None)
         end,
         w1,
         [EvRun PCPNodeInfo
                (fst (execPCPCommand_args c (node_info_args c nodeID)))
                (snd (execPCPCommand_args c (node_info_args c nodeID)))]))
  /\ (forall (r : RunResult) (w1 : W),
      on_run h w PCPWatchdogInfo (fst (execPCPCommand_args c ["-v"]))
             (snd (execPCPCommand_args c ["-v"])) = (r, w1) ->
      perform h w (ExecWatchdogInfo c)
      = (match run_err r with
         | Some _ => (Watchdog.zero, wrapped r)
         | None =>
           (fold_left WatchdogInfo_line (complete_lines (stdout r))
                      Watchdog.zero, None)
         end,
         w1,
         [EvRun PCPWatchdogInfo (fst (execPCPCommand_args c ["-v"]))
                (snd (execPCPCommand_args c ["-v"]))])).
Proof.
  split; intros r w1 Hrun.
  - unfold ExecNodeInfo, node_info_args in *. rewrite perform_bind.
    destruct (pcpPassFileSupport c) eqn:Hs;
      rewrite execPCPCommand_run; simpl; rewrite Hrun; simpl; unfold wrapped;
      (destruct (run_err r) as [e|]; simpl; [reflexivity|]);
      rewrite NodeInfoUnmarshal_lines; reflexivity.
  - unfold ExecWatchdogInfo. rewrite perform_bind, execPCPCommand_run.
    simpl. rewrite Hrun. simpl. unfold wrapped.
    destruct (run_err r) as [e|]; simpl; [reflexivity|].
    rewrite WatchdogInfoUnmarshal_lines. reflexivity.
Qed.

Lemma ExecNodeInfo_ExecWatchdogInfo_result_witness :
  perform failing_world tt (ExecWatchdogInfo legacy_client)
  = ((Watchdog.zero, Some (Errorf_v "" (External "exit status 1") " (out)")),
     tt,
     [EvRun PCPWatchdogInfo None ["-v"; "5"; "h"; "10"; "u"; "p"]]).
Proof.
  apply (proj2 (ExecNodeInfo_ExecWatchdogInfo_result ParseFloat_decimal unit
                  failing_world tt legacy_client 0) failed_run tt).
  reflexivity.
Defined.

Lemma prefix_one (a c : ascii) (s : string) :
  String.prefix (String a "") (String c s) = Ascii.eqb c a.
Proof.
  cbn [String.prefix]. destruct (ascii_dec a c) as [->|Hne].
  - rewrite Ascii.eqb_refl. destruct s; reflexivity.
  - symmetry. apply Ascii.eqb_neq. congruence.
Qed.

Lemma Split_space_length (s : string) : forall cur : string,
  length (Strings.split_scan " " None 0 cur s) = S (spaces s).
Proof.
  induction s as [|c s IH]; intros cur; [reflexivity|].
  cbn [Strings.split_scan spaces]. rewrite prefix_one.
  destruct (Ascii.eqb c " "); simpl; rewrite IH; reflexivity.
Qed.

(** X10.  When its command succeeds [ExecProcCount] gives one token more
    than the trimmed standard output has spaces, with no error: never an
    empty list, and for an output that is empty once trimmed the one
    empty token. *)
Theorem ExecProcCount_tokens
        (W : Type) (h : World W) (w w1 : W) (c : Client) (r : RunResult) :
  on_run h w PCPProcCount (fst (execPCPCommand_args c []))
         (snd (execPCPCommand_args c [])) = (r, w1) ->
  run_err r = None ->
  snd (result h w (ExecProcCount c)) = None
  /\ length (fst (result h w (ExecProcCount c)))
     = S (spaces (Strings.TrimSpace (stdout r)))
  /\ (Strings.TrimSpace (stdout r) = "" ->
      fst (result h w (ExecProcCount c)) = [""]).
Proof.
  intros Hrun Herr. unfold result, ExecProcCount.
  rewrite perform_bind, execPCPCommand_run. simpl. rewrite Hrun. simpl.
  unfold wrapped. rewrite Herr. simpl.
  split; [reflexivity|]. split.
  - apply Split_space_length.
  - intros ->. reflexivity.
Qed.

Lemma ExecProcCount_tokens_witness :
  snd (result probe_only_world tt (ExecProcCount legacy_client)) = None
  /\ length (fst (result probe_only_world tt (ExecProcCount legacy_client)))
     = S (spaces (Strings.TrimSpace
                    (stdout (version_output
                       "pgpool-II version 3.7.1 (amefuriboshi)"))))
  /\ (Strings.TrimSpace
        (stdout (version_output "pgpool-II version 3.7.1 (amefuriboshi)")) = "" ->
      fst (result probe_only_world tt (ExecProcCount legacy_client)) = [""]).
Proof.
  apply (ExecProcCount_tokens unit probe_only_world tt tt legacy_client
           (version_output "pgpool-II version 3.7.1 (amefuriboshi)"));
    reflexivity.
Defined.

(** X11.  Under the file strategy a PCP command does not depend on the
    password, nor on the timeout: a client with any other password and
    timeout makes the same requests and gives the same results in every
    world, so the secret is neither among the arguments nor in the
    environment of the command. *)
Theorem file_strategy_hides_password
        (c : Client) (password : string) (timeout : Z) (cmd : string)
        (arg : list string) :
  pcpPassFileSupport c = true ->
  execPCPCommand (with_secret password timeout c) cmd arg
  = execPCPCommand c cmd arg.
Proof.
  intros Hs. unfold execPCPCommand, execPCPCommand_args. simpl.
  rewrite Hs. reflexivity.
Qed.

Lemma file_strategy_hides_password_witness :
  execPCPCommand (with_secret "another" 30 sample_client) PCPNodeCount []
  = execPCPCommand sample_client PCPNodeCount [].
Proof.
  apply (file_strategy_hides_password sample_client "another" 30
           PCPNodeCount []).
  reflexivity.
Defined.

(** X12.  A decoder fails only on a read error of its stream, and keeps
    what it decoded: on a stream that delivers a text and then breaks with
    an error other than the end of the stream, each of the three decoders
    gives that error together with the result for the text alone. *)
Theorem decoders_keep_partial_result
        (ParseFloat : string -> spec_float * option error)
        (s : string) (e : error) :
  Bufio.is_EOF e = false ->
  NodeInfoUnmarshal ParseFloat (broken_stream s e)
  = (fst (NodeInfoUnmarshal ParseFloat (Bufio.NewBuffer s)), Some e)
  /\ WatchdogInfoUnmarshal (broken_stream s e)
     = (fst (WatchdogInfoUnmarshal (Bufio.NewBuffer s)), Some e)
  /\ ProcInfoUnmarshal (broken_stream s e)
     = (fst (ProcInfoUnmarshal (Bufio.NewBuffer s)), Some e).
Proof.
  intros He.
  rewrite !NodeInfoUnmarshal_lines, !WatchdogInfoUnmarshal_lines,
    !ProcInfoUnmarshal_lines.
  unfold end_of_stream. simpl. rewrite He. repeat split.
Qed.

Lemma decoders_keep_partial_result_witness :
  ProcInfoUnmarshal
    (broken_stream ("a b c d e f g h i j k l 1" +:+ nl +:+ "m n")
                   (External "read: connection reset"))
  = (fst (ProcInfoUnmarshal
            (Bufio.NewBuffer ("a b c d e f g h i j k l 1" +:+ nl +:+ "m n"))),
     Some (External "read: connection reset")).
Proof.
  apply (decoders_keep_partial_result ParseFloat_decimal
           ("a b c d e f g h i j k l 1" +:+ nl +:+ "m n")
           (External "read: connection reset")).
  reflexivity.
Defined.

(** *** Lines, once more *)

Lemma split_lines_line (line : string) :
  Strings.Contains line nl = false ->
  split_lines (line +:+ nl) = ([line +:+ nl], "").
Proof.
  induction line as [|c line IH]; intros H; [reflexivity|].
  cbn [Strings.Contains] in H. apply Bool.orb_false_iff in H as [Hc Hl].
  unfold nl in Hc. rewrite prefix_one in Hc.
  change (String c line +:+ nl) with (String c (line +:+ nl)).
  cbn [split_lines]. rewrite (IH Hl), Hc. reflexivity.
Qed.

Lemma split_lines_terminated (pre : string) :
  exists l ls, split_lines (pre +:+ nl) = (l :: ls, "").
Proof.
  induction pre as [|c pre (l & ls & IH)].
  - exists nl, []. reflexivity.
  - change (String c pre +:+ nl) with (String c (pre +:+ nl)).
    cbn [split_lines]. rewrite IH.
    destruct (Ascii.eqb c newline); eauto.
Qed.

Lemma split_lines_app_boundary (a b : string) :
  snd (split_lines a) = "" ->
  split_lines (a +:+ b)
  = (fst (split_lines a) ++ fst (split_lines b), snd (split_lines b)).
Proof.
  induction a as [|c a IH]; intros H.
  - change ("" +:+ b) with b. destruct (split_lines b); reflexivity.
  - change (String c a +:+ b) with (String c (a +:+ b)).
    cbn [split_lines] in *.
    destruct (split_lines a) as [ls tl] eqn:Ha.
    destruct (Ascii.eqb c newline).
    + simpl in H. subst tl. rewrite (IH eq_refl). reflexivity.
    + destruct ls as [|l ls]; simpl in H; [discriminate|]. subst tl.
      rewrite (IH eq_refl). reflexivity.
Qed.

Lemma complete_lines_last (pre line : string) :
  Strings.Contains line nl = false ->
  complete_lines ((pre +:+ nl) +:+ (line +:+ nl))
  = complete_lines (pre +:+ nl) ++ [line +:+ nl]
  /\ complete_lines (line +:+ nl) = [line +:+ nl].
Proof.
  intros H. unfold complete_lines.
  destruct (split_lines_terminated pre) as (l & ls & Hpre).
  rewrite split_lines_app_boundary by (rewrite Hpre; reflexivity).
  rewrite (split_lines_line line H). split; reflexivity.
Qed.

Lemma Contains_tail (s sub : string) (c : ascii) :
  Strings.Contains s (String c sub) = true -> Strings.Contains s sub = true.
Proof.
  induction s as [|c' s IH]; cbn [Strings.Contains]; intros H.
  - destruct sub; discriminate.
  - apply Bool.orb_true_iff in H as [H|H].
    + cbn [String.prefix] in H.
      destruct (ascii_dec c c'); [|discriminate].
      apply Bool.orb_true_iff. right.
      destruct s; cbn [Strings.Contains]; rewrite H; reflexivity.
    + apply Bool.orb_true_iff. right. apply IH, H.
Qed.

Lemma Contains_Alive (t : string) :
  Strings.Contains t "Alive Remote Nodes" = true ->
  Strings.Contains t "Remote Nodes" = true.
Proof.
  intros H. do 6 apply Contains_tail in H. exact H.
Qed.

(** *** The decoders, field by field *)

Lemma WatchdogInfo_line_alive (wi : Watchdog.WatchdogInfo) (line : string) (n : Z) :
  Strings.Contains (Strings.TrimSpace line) "Alive Remote Nodes" = true ->
  Strconv.Atoi (ExtractValueFromPCPString (Strings.TrimSpace line)) = (n, None) ->
  Watchdog.RemoteNodes (WatchdogInfo_line wi line) = n
  /\ Watchdog.AliveRemoteNodes (WatchdogInfo_line wi line) = n.
Proof.
  intros Hal Hn. unfold WatchdogInfo_line, and_then.
  rewrite Hal, (Contains_Alive _ Hal), Hn.
  destruct (Strings.Contains _ "Total Nodes");
    destruct (Strings.Contains _ "Quorum state");
    destruct (Strings.Contains _ "VIP up on local node");
    try destruct (String.eqb _ "YES"); split; reflexivity.
Qed.

(** X13.  Labels are found by containment, and [Alive Remote Nodes]
    contains [Remote Nodes]: when the last line of the watchdog output
    carries the label [Alive Remote Nodes] with a number, both the count
    of the remote nodes and the count of the alive remote nodes are that
    number, whatever the lines before said. *)
Theorem WatchdogInfoUnmarshal_alive_sets_remote (pre line : string) (n : Z) :
  Strings.Contains line nl = false ->
  Strings.Contains (Strings.TrimSpace (line +:+ nl)) "Alive Remote Nodes" = true ->
  Strconv.Atoi (ExtractValueFromPCPString (Strings.TrimSpace (line +:+ nl)))
  = (n, None) ->
  let wi := fst (WatchdogInfoUnmarshal
                   (Bufio.NewBuffer ((pre +:+ nl) +:+ (line +:+ nl)))) in
  Watchdog.RemoteNodes wi = n /\ Watchdog.AliveRemoteNodes wi = n.
Proof.
  intros Hline Hal Hn. rewrite WatchdogInfoUnmarshal_lines. simpl.
  rewrite (proj1 (complete_lines_last pre line Hline)), fold_left_app. simpl.
  apply WatchdogInfo_line_alive; assumption.
Qed.

Lemma WatchdogInfoUnmarshal_alive_sets_remote_witness :
  let wi := fst (WatchdogInfoUnmarshal
                   (Bufio.NewBuffer (("Remote Nodes: 2" +:+ nl)
                                     +:+ ("Alive Remote Nodes: 1" +:+ nl)))) in
  Watchdog.RemoteNodes wi = 1%Z /\ Watchdog.AliveRemoteNodes wi = 1%Z.
Proof.
  apply (WatchdogInfoUnmarshal_alive_sets_remote "Remote Nodes: 2"
           "Alive Remote Nodes: 1" 1); reflexivity.
Defined.

(** X14.  The host name of a node is the value of the last line that
    carries the label [Hostname]: when the last line of the output carries
    it, the host name is what [ExtractValueFromPCPString] gives for that
    line, the empty text if the line has not the shape label, colon,
    space, value, whatever an earlier line set. *)
Theorem NodeInfoUnmarshal_last_Hostname
        (ParseFloat : string -> spec_float * option error)
        (pre line : string) :
  Strings.Contains line nl = false ->
  Strings.Contains (Strings.TrimSpace (line +:+ nl)) "Hostname" = true ->
  Node.Hostname (fst (NodeInfoUnmarshal ParseFloat
                        (Bufio.NewBuffer ((pre +:+ nl) +:+ (line +:+ nl)))))
  = ExtractValueFromPCPString (Strings.TrimSpace (line +:+ nl)).
Proof.
  intros Hline Hh. rewrite NodeInfoUnmarshal_lines. simpl.
  rewrite (proj1 (complete_lines_last pre line Hline)), fold_left_app. simpl.
  unfold NodeInfo_line, and_then. rewrite Hh.
  repeat match goal with
         | |- context [if Strings.Contains ?a ?b then _ else _] =>
           destruct (Strings.Contains a b)
         | |- context [Strconv.Atoi ?a] =>
           destruct (Strconv.Atoi a) as [? [?|]]
         | |- context [ParseFloat ?a] =>
           destruct (ParseFloat a) as [? [?|]]
         end; reflexivity.
Qed.

Lemma NodeInfoUnmarshal_last_Hostname_witness :
  Node.Hostname
    (fst (NodeInfoUnmarshal ParseFloat_decimal
            (Bufio.NewBuffer (("Hostname: db1" +:+ nl)
                              +:+ ("Hostname:db2" +:+ nl)))))
  = ExtractValueFromPCPString (Strings.TrimSpace ("Hostname:db2" +:+ nl)).
Proof.
  apply (NodeInfoUnmarshal_last_Hostname ParseFloat_decimal "Hostname: db1"
           "Hostname:db2"); reflexivity.
Defined.

Lemma fold_left_invariant {A B : Type} (P : A -> Prop) (f : A -> B -> A)
      (l : list B) :
  (forall a b, P a -> P (f a b)) -> forall a, P a -> P (fold_left f l a).
Proof.
  intros Hf. induction l as [|b l IH]; intros a Ha; simpl; auto.
Qed.

Lemma WatchdogInfo_line_VIP (wi : Watchdog.WatchdogInfo) (line : string) :
  Watchdog.VIP (WatchdogInfo_line wi line) = Watchdog.VIP wi || sets_vip line.
Proof.
  unfold WatchdogInfo_line, sets_vip, and_then.
  set (t := Strings.TrimSpace line).
  destruct (Strings.Contains t "Total Nodes") eqn:HT;
    destruct (Strings.Contains t "Remote Nodes") eqn:HR;
    destruct (Strings.Contains t "Alive Remote Nodes") eqn:HA;
    try (apply Contains_Alive in HA; congruence);
    destruct (Strings.Contains t "Quorum state");
    destruct (Strings.Contains t "VIP up on local node");
    destruct (Strconv.Atoi (ExtractValueFromPCPString t)) as [n [e|]] eqn:HN;
    destruct (String.eqb_spec (ExtractValueFromPCPString t) "YES") as [HY|HY];
    try (rewrite HY in HN; vm_compute in HN; discriminate HN);
    simpl; destruct (Watchdog.VIP wi); reflexivity.
Qed.

(** X15.  The VIP flag of the watchdog record is true exactly when some
    complete line of the output carries the label [VIP up on local node]
    with the value [YES], in this spelling, and carries no label of a
    node count; once true the flag stays true. *)
Theorem WatchdogInfoUnmarshal_VIP (r : Bufio.Reader) :
  Watchdog.VIP (fst (WatchdogInfoUnmarshal r))
  = existsb sets_vip (complete_lines (Bufio.data r)).
Proof.
  rewrite WatchdogInfoUnmarshal_lines. simpl.
  change (existsb sets_vip (complete_lines (Bufio.data r)))
    with (Watchdog.VIP Watchdog.zero
          || existsb sets_vip (complete_lines (Bufio.data r))).
  generalize Watchdog.zero.
  induction (complete_lines (Bufio.data r)) as [|line lines IH]; intros wi;
    simpl.
  - rewrite Bool.orb_false_r. reflexivity.
  - rewrite IH, WatchdogInfo_line_VIP, Bool.orb_assoc. reflexivity.
Qed.

Lemma QuorumStateToCode_range (state : string) :
  (-3 <= QuorumStateToCode state <= 1)%Z.
Proof.
  destruct (String.eqb_spec state "UNKNOWN") as [->|H1];
    [vm_compute; split; discriminate|].
  destruct (String.eqb_spec state "NO MASTER NODE") as [->|H2];
    [vm_compute; split; discriminate|].
  destruct (String.eqb_spec state "QUORUM ABSENT") as [->|H3];
    [vm_compute; split; discriminate|].
  destruct (String.eqb_spec state "QUORUM IS ON THE EDGE") as [->|H4];
    [vm_compute; split; discriminate|].
  destruct (String.eqb_spec state "QUORUM EXIST") as [->|H5];
    [vm_compute; split; discriminate|].
  unfold QuorumStateToCode, quorumStateToInt. simpl.
  rewrite !lookup_insert_ne by congruence.
  rewrite lookup_empty. vm_compute. split; discriminate.
Qed.

Lemma NodeInfo_line_status
      (ParseFloat : string -> spec_float * option error)
      (ni : Node.NodeInfo) (line : string) :
  status_consistent ni -> status_consistent (NodeInfo_line ParseFloat ni line).
Proof.
  unfold status_consistent, NodeInfo_line, and_then. intros H.
  repeat match goal with
         | |- context [if Strings.Contains ?a ?b then _ else _] =>
           destruct (Strings.Contains a b)
         | |- context [Strconv.Atoi ?a] =>
           destruct (Strconv.Atoi a) as [? [?|]]
         | |- context [ParseFloat ?a] =>
           destruct (ParseFloat a) as [? [?|]]
         end; simpl; auto.
Qed.

Lemma WatchdogInfo_line_quorum (wi : Watchdog.WatchdogInfo) (line : string) :
  quorum_consistent wi -> quorum_consistent (WatchdogInfo_line wi line).
Proof.
  unfold quorum_consistent, WatchdogInfo_line, and_then. intros H.
  repeat match goal with
         | |- context [if Strings.Contains ?a ?b then _ else _] =>
           destruct (Strings.Contains a b)
         | |- context [Strconv.Atoi ?a] =>
           destruct (Strconv.Atoi a) as [? [?|]]
         | |- context [if String.eqb ?a ?b then _ else _] =>
           destruct (String.eqb a b)
         end; simpl; auto.
Qed.

(** X16.  The derived fields stay consistent, whatever the input.  The
    status text of a decoded node is the text of its status code, unless
    no status line was decoded: then the text is empty and the code is 0.
    The code of the quorum state of a decoded watchdog record is the code
    of its quorum text, unless no quorum line was decoded: then the text
    is empty and the code is 0, which is also the code of [QUORUM IS ON
    THE EDGE].  The quorum code is always between -3 and 1. *)
Theorem decoded_records_consistent
        (ParseFloat : string -> spec_float * option error) (r : Bufio.Reader) :
  status_consistent (fst (NodeInfoUnmarshal ParseFloat r))
  /\ quorum_consistent (fst (WatchdogInfoUnmarshal r))
  /\ (-3 <= Watchdog.QuorumStateCode (fst (WatchdogInfoUnmarshal r)) <= 1)%Z
  /\ QuorumStateToCode "QUORUM IS ON THE EDGE" = 0%Z.
Proof.
  rewrite NodeInfoUnmarshal_lines, WatchdogInfoUnmarshal_lines. simpl.
  assert (Hq : quorum_consistent
                 (fold_left WatchdogInfo_line (complete_lines (Bufio.data r))
                            Watchdog.zero)).
  { apply fold_left_invariant.
    - intros a b. apply WatchdogInfo_line_quorum.
    - left. split; reflexivity. }
  split; [|split; [exact Hq|split; [|reflexivity]]].
  - apply fold_left_invariant.
    + intros a b. apply NodeInfo_line_status.
    + left. split; reflexivity.
  - destruct Hq as [(_ & ->)| ->]; [lia|]. apply QuorumStateToCode_range.
Qed.

(** *** Runes of a byte string *)

Lemma N_le_lor_l (a b : N) : (a <= N.lor a b)%N.
Proof.
  apply N.ldiff_le, N.bits_inj. intros n.
  rewrite N.ldiff_spec, N.lor_spec, N.bits_0.
  destruct (N.testbit a n), (N.testbit b n); reflexivity.
Qed.

Lemma N_le_lor_r (a b : N) : (b <= N.lor a b)%N.
Proof. rewrite N.lor_comm. apply N_le_lor_l. Qed.

Lemma first_spec (b : N) (sz : nat) (lo hi : N) :
  Utf8.first b = Some (sz, lo, hi) ->
  (0x80 <= lo)%N /\ (hi <= 0xBF)%N
  /\ ((sz = 2 /\ (0xC2 <= b <= 0xDF)%N)
      \/ (sz = 3 /\ b = 0xE0%N /\ lo = 0xA0%N)
      \/ (sz = 3 /\ (0xE1 <= b <= 0xEF)%N)
      \/ (sz = 4 /\ b = 0xF0%N /\ lo = 0x90%N)
      \/ (sz = 4 /\ (0xF1 <= b <= 0xF4)%N)).
Proof.
  unfold Utf8.first.
  repeat match goal with
         | |- context [(?x <? ?y)%N] => destruct (N.ltb_spec x y)
         | |- context [(?x <=? ?y)%N] => destruct (N.leb_spec x y)
         | |- context [(?x =? ?y)%N] => destruct (N.eqb_spec x y)
         end; intros Heq; try discriminate Heq; injection Heq as <- <- <-;
    (split; [lia|split; [lia|]]); lia.
Qed.

Lemma land_ones_split (a : N) (k : N) :
  exists q r, a = (2 ^ k * q + r)%N /\ (r < 2 ^ k)%N /\ N.land a (N.ones k) = r.
Proof.
  exists (a / 2 ^ k)%N, (a mod 2 ^ k)%N. split; [|split].
  - apply N.div_mod. apply N.pow_nonzero. discriminate.
  - apply N.mod_lt. apply N.pow_nonzero. discriminate.
  - apply N.land_ones.
Qed.

Lemma decode_width (s : string) (r : N) (w : nat) :
  s <> "" -> Utf8.DecodeRuneInString s = (r, w) ->
  1 <= w <= String.length s.
Proof.
  destruct s as [|c0 s]; [congruence|]. intros _.
  unfold Utf8.DecodeRuneInString.
  destruct (byte_of c0 <? 0x80)%N.
  { intros H. injection H as _ <-. simpl. lia. }
  destruct (Utf8.first (byte_of c0)) as [[[sz lo] hi]|] eqn:F.
  2:{ intros H. injection H as _ <-. simpl. lia. }
  apply first_spec in F. destruct F as (_ & _ & F).
  destruct (Nat.ltb_spec (String.length (String c0 s)) sz).
  { intros H'. injection H' as _ <-. simpl. lia. }
  repeat match goal with
         | |- context [if Utf8.outside ?a ?b ?c then _ else _] =>
           destruct (Utf8.outside a b c)
         | |- context [if (?x <=? ?y) then _ else _] =>
           destruct (Nat.leb_spec x y)
         end; intros H'; injection H' as _ <-; simpl in *; lia.
Qed.

Lemma decode_ascii_rune (s : string) (r : N) (w : nat) :
  Utf8.DecodeRuneInString s = (r, w) -> (r < 0x80)%N ->
  exists c s', s = String c s' /\ byte_of c = r /\ w = 1 /\ ascii_byte c = true.
Proof.
  destruct s as [|c0 s].
  { simpl. intros H. injection H as <- _. unfold Utf8.RuneError. lia. }
  unfold Utf8.DecodeRuneInString.
  destruct (byte_of c0 <? 0x80)%N eqn:Hc0.
  { intros H _. injection H as <- <-. exists c0, s. auto. }
  intros H Hr. exfalso.
  destruct (Utf8.first (byte_of c0)) as [[[sz lo] hi]|] eqn:F.
  2:{ injection H as <- _. unfold Utf8.RuneError in Hr. lia. }
  apply first_spec in F. destruct F as (Hlo & Hhi & F).
  destruct (String.length (String c0 s) <? sz).
  { injection H as <- _. unfold Utf8.RuneError in Hr. lia. }
  set (s0 := byte_of c0) in *.
  set (s1 := Utf8.byte_at (String c0 s) 1) in *.
  set (s2 := Utf8.byte_at (String c0 s) 2) in *.
  set (s3 := Utf8.byte_at (String c0 s) 3) in *.
  clearbody s0 s1 s2 s3.
  destruct (land_ones_split s0 5) as (q5 & r5 & E5 & L5 & H5).
  destruct (land_ones_split s0 4) as (q4 & r4 & E4 & L4 & H4).
  destruct (land_ones_split s0 3) as (q3 & r3 & E3' & L3 & H3).
  destruct (land_ones_split s1 6) as (q6 & r6 & E6 & L6 & H6).
  change (N.ones 6) with 63%N in H6. change (2 ^ 6)%N with 64%N in *.
  change (N.ones 5) with 31%N in H5. change (N.ones 4) with 15%N in H4.
  change (N.ones 3) with 7%N in H3.
  change (2 ^ 5)%N with 32%N in *. change (2 ^ 4)%N with 16%N in *.
  change (2 ^ 3)%N with 8%N in *.
  destruct (Utf8.outside lo hi s1) eqn:Ho1.
  { injection H as <- _. unfold Utf8.RuneError in Hr. lia. }
  unfold Utf8.outside in Ho1. apply Bool.orb_false_iff in Ho1 as [Ha Hb].
  apply N.ltb_ge in Ha. apply N.ltb_ge in Hb.
  destruct (sz <=? 2) eqn:E2.
  { injection H as <- _. apply Nat.leb_le in E2.
    pose proof (N_le_lor_l (N.shiftl (N.land s0 31) 6) (N.land s1 63)) as Hle.
    rewrite N.shiftl_mul_pow2, H5 in *.
    change (2 ^ 6)%N with 64%N in *. lia. }
  apply Nat.leb_gt in E2.
  destruct (Utf8.outside 0x80 0xBF s2).
  { injection H as <- _. unfold Utf8.RuneError in Hr. lia. }
  destruct (sz <=? 3) eqn:E3.
  { injection H as <- _. apply Nat.leb_le in E3.
    pose proof (N_le_lor_l (N.shiftl (N.land s0 15) 12)
                  (N.lor (N.shiftl (N.land s1 63) 6) (N.land s2 63))) as Hl1.
    pose proof (N_le_lor_r (N.shiftl (N.land s0 15) 12)
                  (N.lor (N.shiftl (N.land s1 63) 6) (N.land s2 63))) as Hl2.
    pose proof (N_le_lor_l (N.shiftl (N.land s1 63) 6) (N.land s2 63)) as Hl3.
    rewrite !N.shiftl_mul_pow2, ?H4, ?H6 in *.
    change (2 ^ 6)%N with 64%N in *. change (2 ^ 12)%N with 4096%N in *. lia. }
  apply Nat.leb_gt in E3.
  destruct (Utf8.outside 0x80 0xBF s3).
  { injection H as <- _. unfold Utf8.RuneError in Hr. lia. }
  injection H as <- _.
  pose proof (N_le_lor_l (N.shiftl (N.land s0 7) 18)
                (N.lor (N.shiftl (N.land s1 63) 12)
                   (N.lor (N.shiftl (N.land s2 63) 6) (N.land s3 63)))) as Hl1.
  pose proof (N_le_lor_r (N.shiftl (N.land s0 7) 18)
                (N.lor (N.shiftl (N.land s1 63) 12)
                   (N.lor (N.shiftl (N.land s2 63) 6) (N.land s3 63)))) as Hl2.
  pose proof (N_le_lor_l (N.shiftl (N.land s1 63) 12)
                (N.lor (N.shiftl (N.land s2 63) 6) (N.land s3 63))) as Hl3.
  rewrite !N.shiftl_mul_pow2, ?H3, ?H6 in *.
  change (2 ^ 6)%N with 64%N in *. change (2 ^ 12)%N with 4096%N in *.
  change (2 ^ 18)%N with 262144%N in *. lia.
Qed.

Lemma cut_at_Some (c : ascii) (s a b : string) :
  cut_at c s = Some (a, b) -> s = a +:+ String c b /\ has_byte c a = false.
Proof.
  revert a b. induction s as [|d s IH]; intros a b; simpl; [discriminate|].
  destruct (Ascii.eqb_spec d c) as [->|Hne].
  - intros H. injection H as <- <-. auto.
  - destruct (cut_at c s) as [[a' b']|]; [|discriminate].
    intros H. injection H as <- <-. destruct (IH a' b' eq_refl) as [-> Hb].
    split; [reflexivity|]. simpl. rewrite Hb.
    destruct (Ascii.eqb_spec d c); [contradiction|reflexivity].
Qed.

Lemma cut_at_None (c : ascii) (s : string) :
  cut_at c s = None -> has_byte c s = false.
Proof.
  induction s as [|d s IH]; simpl; [reflexivity|].
  destruct (Ascii.eqb d c); [discriminate|].
  destruct (cut_at c s) as [[a' b']|]; [discriminate|]. auto.
Qed.

Lemma has_byte_cut (c : ascii) (s : string) :
  has_byte c s = true -> exists a b, cut_at c s = Some (a, b).
Proof.
  destruct (cut_at c s) as [[a b]|] eqn:E; [eauto|].
  apply cut_at_None in E. congruence.
Qed.

Lemma take_bytes_app (n : nat) (a b : string) :
  n <= String.length a -> take_bytes n (a +:+ b) = take_bytes n a.
Proof.
  revert a. induction n as [|n IH]; intros a H.
  - reflexivity.
  - destruct a as [|c a]; simpl in *; [lia|]. f_equal. apply IH. lia.
Qed.

Lemma drop_bytes_app (n : nat) (a b : string) :
  n <= String.length a -> drop_bytes n (a +:+ b) = drop_bytes n a +:+ b.
Proof.
  revert a. induction n as [|n IH]; intros a H.
  - reflexivity.
  - destruct a as [|c a]; simpl in *; [lia|]. apply IH. lia.
Qed.

Lemma take_drop_bytes (n : nat) (s : string) :
  take_bytes n s +:+ drop_bytes n s = s.
Proof.
  revert s. induction n as [|n IH]; intros [|c s]; simpl; try reflexivity.
  change (String c (take_bytes n s) +:+ drop_bytes n s)
    with (String c (take_bytes n s +:+ drop_bytes n s)).
  f_equal. apply IH.
Qed.

Lemma drop_bytes_length (n : nat) (s : string) :
  String.length (drop_bytes n s) = String.length s - n.
Proof.
  revert s. induction n as [|n IH]; intros [|c s]; simpl; try reflexivity.
  apply IH.
Qed.

Lemma has_byte_drop (c : ascii) (n : nat) (s : string) :
  has_byte c s = false -> has_byte c (drop_bytes n s) = false.
Proof.
  revert s. induction n as [|n IH]; intros [|d s]; simpl; try tauto.
  intros H. apply Bool.orb_false_iff in H as [_ H]. auto.
Qed.

Lemma decode_append (a b : string) (c : ascii) :
  a <> "" -> ascii_byte c = true ->
  Utf8.DecodeRuneInString (a +:+ String c b) = Utf8.DecodeRuneInString a.
Proof.
  destruct a as [|c0 a]; [congruence|]. intros _ Hc.
  unfold ascii_byte in Hc. apply N.ltb_lt in Hc.
  change (String c0 a +:+ String c b) with (String c0 (a +:+ String c b)).
  unfold Utf8.DecodeRuneInString.
  destruct (byte_of c0 <? 0x80)%N; [reflexivity|].
  destruct (Utf8.first (byte_of c0)) as [[[sz lo] hi]|] eqn:F; [|reflexivity].
  apply first_spec in F. destruct F as (Hlo & _ & F).
  assert (Hout : Utf8.outside lo hi (byte_of c) = true).
  { unfold Utf8.outside. apply Bool.orb_true_iff. left. apply N.ltb_lt. lia. }
  assert (Hout' : Utf8.outside 0x80 0xBF (byte_of c) = true).
  { unfold Utf8.outside. apply Bool.orb_true_iff. left. apply N.ltb_lt. lia. }
  assert (Hsz : sz = 2 \/ sz = 3 \/ sz = 4) by lia. clear F.
  destruct a as [|c1 [|c2 [|c3 a]]];
    destruct Hsz as [-> |[-> | ->]]; cbv [String.append]; cbn; unfold Utf8.byte_at; cbn;
    rewrite ?Hout, ?Hout'; try reflexivity;
    repeat match goal with
           | |- context [if Utf8.outside ?x ?y ?z then _ else _] =>
             destruct (Utf8.outside x y z); try reflexivity
           end;
    match goal with
    | |- context [if ?x then _ else _] => destruct x; reflexivity
    end.
Qed.

Lemma runes_from_fuel (fuel1 fuel2 : nat) (s : string) :
  String.length s <= fuel1 -> String.length s <= fuel2 ->
  Utf8.runes_from fuel1 s = Utf8.runes_from fuel2 s.
Proof.
  revert fuel2 s. induction fuel1 as [|fuel1 IH]; intros fuel2 s H1 H2.
  - destruct s; simpl in H1; [|lia]. destruct fuel2; reflexivity.
  - destruct fuel2 as [|fuel2]; [destruct s; simpl in H2; [reflexivity|lia]|].
    destruct s as [|c s]; [reflexivity|].
    cbn [Utf8.runes_from].
    destruct (Utf8.DecodeRuneInString (String c s)) as [r w] eqn:D.
    f_equal. apply decode_width in D; [|discriminate].
    apply IH; rewrite drop_bytes_length; simpl in *; lia.
Qed.

Lemma runes_cons (s : string) (r : N) (w : nat) :
  s <> "" -> Utf8.DecodeRuneInString s = (r, w) ->
  Utf8.runes s
  = Utf8.Token r (take_bytes w s) :: Utf8.runes (drop_bytes w s).
Proof.
  intros Hs D. unfold Utf8.runes.
  destruct s as [|c s]; [congruence|].
  cbn [String.length Utf8.runes_from]. rewrite D. f_equal.
  apply decode_width in D; [|discriminate].
  apply runes_from_fuel; rewrite ?drop_bytes_length; simpl in *; lia.
Qed.

Lemma runes_ascii (c : ascii) (s : string) :
  ascii_byte c = true ->
  Utf8.runes (String c s) = Utf8.Token (byte_of c) (String c "") :: Utf8.runes s.
Proof.
  intros Hc. rewrite (runes_cons (String c s) (byte_of c) 1); [|discriminate|].
  - simpl. destruct s; reflexivity.
  - unfold Utf8.DecodeRuneInString. unfold ascii_byte in Hc. rewrite Hc.
    reflexivity.
Qed.

Lemma runes_app (a b : string) (c : ascii) :
  ascii_byte c = true ->
  Utf8.runes (a +:+ String c b) = Utf8.runes a ++ Utf8.runes (String c b).
Proof.
  intros Hc. remember (String.length a) as n eqn:Hn.
  revert a Hn. induction n as [n IH] using lt_wf_ind. intros a Hn.
  destruct a as [|c0 a]; [reflexivity|].
  destruct (Utf8.DecodeRuneInString (String c0 a)) as [r w] eqn:D.
  assert (Hw : 1 <= w <= String.length (String c0 a))
    by (apply (decode_width _ r); [discriminate|exact D]).
  rewrite (runes_cons (String c0 a +:+ String c b) r w);
    [|discriminate|rewrite decode_append; [exact D|discriminate|exact Hc]].
  rewrite (runes_cons (String c0 a) r w); [|discriminate|exact D].
  rewrite take_bytes_app, drop_bytes_app by lia.
  cbn [app]. f_equal.
  assert (Hlt : String.length (drop_bytes w (String c0 a)) < n)
    by (rewrite drop_bytes_length; simpl in *; lia).
  apply (IH _ Hlt _ eq_refl).
Qed.

Lemma bytes_runes (s : string) : Utf8.bytes (Utf8.runes s) = s.
Proof.
  remember (String.length s) as n eqn:Hn.
  revert s Hn. induction n as [n IH] using lt_wf_ind. intros s Hn.
  destruct s as [|c0 s]; [reflexivity|].
  destruct (Utf8.DecodeRuneInString (String c0 s)) as [r w] eqn:D.
  assert (Hw : 1 <= w <= String.length (String c0 s))
    by (apply (decode_width _ r); [discriminate|exact D]).
  rewrite (runes_cons (String c0 s) r w); [|discriminate|exact D].
  cbn [Utf8.bytes fold_right Utf8.raw].
  change (fold_right (fun t acc => Utf8.raw t +:+ acc) "" ?l)
    with (Utf8.bytes l).
  assert (Hlt : String.length (drop_bytes w (String c0 s)) < n)
    by (rewrite drop_bytes_length; simpl in *; lia).
  rewrite (IH _ Hlt _ eq_refl). apply take_drop_bytes.
Qed.

Lemma byte_of_inj (c d : ascii) : byte_of c = byte_of d -> c = d.
Proof.
  unfold byte_of. intros H.
  rewrite <- (ascii_N_embedding c), <- (ascii_N_embedding d), H. reflexivity.
Qed.

(** A string without the ASCII byte [c] has no rune [c]. *)
Lemma runes_without (c : ascii) (s : string) :
  ascii_byte c = true -> has_byte c s = false ->
  Forall (fun t => Utf8.rune t <> byte_of c) (Utf8.runes s).
Proof.
  intros Hc. remember (String.length s) as n eqn:Hn.
  revert s Hn. induction n as [n IH] using lt_wf_ind. intros s Hn Hs.
  destruct s as [|c0 s]; [constructor|].
  destruct (Utf8.DecodeRuneInString (String c0 s)) as [r w] eqn:D.
  assert (Hw : 1 <= w <= String.length (String c0 s))
    by (apply (decode_width _ r); [discriminate|exact D]).
  rewrite (runes_cons (String c0 s) r w); [|discriminate|exact D].
  constructor.
  - cbn [Utf8.rune]. intros ->.
    destruct (decode_ascii_rune _ _ _ D) as (c' & s' & E & Hb & _).
    { unfold ascii_byte in Hc. apply N.ltb_lt in Hc. exact Hc. }
    injection E as <- <-. apply byte_of_inj in Hb. subst c0.
    simpl in Hs. rewrite Ascii.eqb_refl in Hs. discriminate.
  - assert (Hlt : String.length (drop_bytes w (String c0 s)) < n)
      by (rewrite drop_bytes_length; simpl in *; lia).
    apply (IH _ Hlt _ eq_refl). apply has_byte_drop. exact Hs.
Qed.

(** The first rune of a string that starts with a byte other than the ASCII
    byte [c] is not [c]. *)
Lemma runes_head (c d : ascii) (s : string) :
  ascii_byte c = true -> d <> c ->
  exists t ts, Utf8.runes (String d s) = t :: ts /\ Utf8.rune t <> byte_of c.
Proof.
  intros Hc Hd.
  destruct (Utf8.DecodeRuneInString (String d s)) as [r w] eqn:D.
  rewrite (runes_cons (String d s) r w); [|discriminate|exact D].
  eexists _, _. split; [reflexivity|]. cbn [Utf8.rune]. intros ->.
  destruct (decode_ascii_rune _ _ _ D) as (c' & s' & E & Hb & _).
  { unfold ascii_byte in Hc. apply N.ltb_lt in Hc. exact Hc. }
  injection E as <- <-. apply byte_of_inj in Hb. contradiction.
Qed.

Lemma runes_nonempty (s : string) : s <> "" -> Utf8.runes s <> [].
Proof.
  intros Hs. destruct (Utf8.DecodeRuneInString s) as [r w] eqn:D.
  rewrite (runes_cons s r w Hs D). discriminate.
Qed.

(** *** The greedy star and the pattern of a value *)

Section Star.
Context {R : Type}.
Variable p : N -> bool.
Variable k : list Utf8.token -> nat -> option (nat * nat) -> option R.
Variable cap : option (nat * nat).

Lemma exec_Star_cons (t : Utf8.token) (inp : list Utf8.token) (pos : nat) :
  Regexp.exec (Regexp.Star p) (t :: inp) pos cap k
  = if p (Utf8.rune t)
    then match Regexp.exec (Regexp.Star p) inp (S pos) cap k with
         | Some r => Some r
         | None => k (t :: inp) pos cap
         end
    else k (t :: inp) pos cap.
Proof. reflexivity. Qed.

Lemma exec_Star_nil (pos : nat) :
  Regexp.exec (Regexp.Star p) [] pos cap k = k [] pos cap.
Proof. reflexivity. Qed.

(** A greedy star over a run [A] of runes of the class, where what follows
    the star cannot start at a rune of [A]: the star takes the whole run. *)
Lemma exec_Star_run (A rest : list Utf8.token) (pos : nat) :
  Forall (fun t => p (Utf8.rune t) = true) A ->
  (forall t inp pos', In t A -> k (t :: inp) pos' cap = None) ->
  match rest with [] => True | t :: _ => p (Utf8.rune t) = false end ->
  Regexp.exec (Regexp.Star p) (A ++ rest) pos cap k
  = k rest (pos + length A) cap.
Proof.
  intros HA Hk Hrest. revert pos.
  induction A as [|a A IH]; intros pos.
  - rewrite Nat.add_0_r. cbn [app]. destruct rest as [|t rest].
    + apply exec_Star_nil.
    + rewrite exec_Star_cons, Hrest. reflexivity.
  - cbn [app length]. rewrite exec_Star_cons.
    inversion HA as [|? ? Ha HA']; subst. rewrite Ha.
    rewrite IH; [| exact HA' | intros t inp pos' Ht; apply Hk; right; exact Ht].
    rewrite (Hk a (A ++ rest) pos (or_introl eq_refl)).
    replace (S pos + length A) with (pos + S (length A)) by lia.
    destruct (k rest (pos + S (length A)) cap); reflexivity.
Qed.
End Star.

Lemma search_BeginText (re : Regexp.regex) (inp : list Utf8.token) (pos : nat) :
  0 < pos -> Regexp.search (Regexp.Cat Regexp.BeginText re) inp pos = None.
Proof.
  revert pos. induction inp as [|t inp IH]; intros pos Hpos;
    cbn [Regexp.search]; unfold Regexp.match_at; cbn [Regexp.exec];
    destruct (Nat.eqb_spec pos 0); try lia; try reflexivity.
  apply IH. lia.
Qed.

(** What [ExtractValueFromPCPString] returns, from the match of the pattern
    at the start of the text. *)
Lemma ExtractValue_match_at (line : string) :
  ExtractValueFromPCPString line
  = match Regexp.match_at PCPValueRegExp (Utf8.runes line) 0 with
    | Some (_, Some (cb, ce)) => Regexp.slice (Utf8.runes line) cb ce
    | _ => ""
    end.
Proof.
  unfold ExtractValueFromPCPString, Regexp.FindStringSubmatch.
  destruct (Utf8.runes line) as [|t ts] eqn:E.
  - cbn [Regexp.search].
    destruct (Regexp.match_at PCPValueRegExp [] 0) as [[e [[cb ce]|]]|];
      reflexivity.
  - cbn [Regexp.search].
    destruct (Regexp.match_at PCPValueRegExp (t :: ts) 0) as [[e [[cb ce]|]]|];
      try reflexivity.
    unfold PCPValueRegExp. rewrite search_BeginText by lia. reflexivity.
Qed.

Lemma slice_app (X Y : list Utf8.token) (from to : nat) :
  from = length X -> to = length X + length Y ->
  Regexp.slice (X ++ Y) from to = Utf8.bytes Y.
Proof.
  intros -> ->. unfold Regexp.slice.
  rewrite skipn_app, skipn_all, Nat.sub_diag. cbn [app skipn].
  replace (length X + length Y - length X) with (length Y) by lia.
  rewrite firstn_all. reflexivity.
Qed.

Lemma match_at_PCPValue (t : Utf8.token) (ts : list Utf8.token) :
  Regexp.match_at PCPValueRegExp (t :: ts) 0
  = if Regexp.rune_is_not ":" (Utf8.rune t)
    then Regexp.exec (Regexp.Star (Regexp.rune_is_not ":")) ts 1 None
           (fun inp pos cap => Regexp.exec after_label inp pos cap matched)
    else None.
Proof. reflexivity. Qed.

Lemma exec_after_label_other (t : Utf8.token) (inp : list Utf8.token)
      (pos : nat) (cap : option (nat * nat)) :
  Utf8.rune t <> byte_of ":" ->
  Regexp.exec after_label (t :: inp) pos cap matched = None.
Proof.
  intros Ht. unfold after_label. cbn [Regexp.exec]. unfold Regexp.rune_is.
  destruct (N.eqb_spec (Utf8.rune t) (byte_of ":")); [contradiction|reflexivity].
Qed.

Lemma exec_after_label_colon (raw : string) (inp : list Utf8.token)
      (pos : nat) (cap : option (nat * nat)) :
  Regexp.exec after_label (Utf8.Token (byte_of ":") raw :: inp) pos cap matched
  = match inp with
    | [] => None
    | t :: inp' =>
      if Regexp.rune_is " " (Utf8.rune t)
      then Regexp.exec (Regexp.Star Regexp.any_not_nl) inp' (S (S pos)) cap
             (at_end (S (S pos)))
      else None
    end.
Proof. destruct inp; reflexivity. Qed.

Lemma rune_is_not_true (c : ascii) (r : N) :
  r <> byte_of c -> Regexp.rune_is_not c r = true.
Proof.
  intros H. unfold Regexp.rune_is_not.
  destruct (N.eqb_spec r (byte_of c)); [contradiction|reflexivity].
Qed.

Lemma label_runes (ts : list Utf8.token) :
  Forall (fun t => Utf8.rune t <> byte_of ":") ts ->
  Forall (fun t => Regexp.rune_is_not ":" (Utf8.rune t) = true) ts.
Proof.
  intros H. eapply Forall_impl; [exact H|]. intros t. apply rune_is_not_true.
Qed.

Lemma value_runes (ts : list Utf8.token) :
  Forall (fun t => Utf8.rune t <> byte_of newline) ts ->
  Forall (fun t => Regexp.any_not_nl (Utf8.rune t) = true) ts.
Proof.
  intros H0. eapply Forall_impl; [exact H0|].
  intros t H. cbn beta in *. unfold Regexp.any_not_nl.
  destruct (N.eqb_spec (Utf8.rune t) 10); [contradiction|reflexivity].
Qed.

(** X17.  On every byte string, valid UTF-8 or not,
    [ExtractValueFromPCPString] gives what a reading of the bytes gives:
    when the first colon of the line has text before it and a space right
    after it, and no newline follows, the result is all the text after
    that space, later colons included; for every other line (no colon, a
    colon at the start, a first colon not followed by a space, a newline
    in the value) it is the empty text. *)
Theorem ExtractValueFromPCPString_value (line : string) :
  ExtractValueFromPCPString line = value_after_label line.
Proof.
  rewrite ExtractValue_match_at. unfold value_after_label.
  destruct (cut_at ":" line) as [[L rest]|] eqn:C.
  - apply cut_at_Some in C as [-> HL].
    pose proof (runes_without ":" L eq_refl HL) as HA.
    rewrite runes_app by reflexivity. rewrite runes_ascii by reflexivity.
    destruct L as [|l0 L]; [reflexivity|].
    destruct (Utf8.runes (String l0 L)) as [|a0 A] eqn:EA.
    { exfalso. apply (runes_nonempty (String l0 L)); [discriminate|exact EA]. }
    inversion HA as [|? ? Ha0 HA']; subst.
    cbn [app]. rewrite match_at_PCPValue, (rune_is_not_true _ _ Ha0).
    rewrite exec_Star_run;
      [ | apply label_runes; exact HA'
        | intros t inp pos' Ht; apply exec_after_label_other;
          exact (proj1 (List.Forall_forall _ _) HA' t Ht)
        | reflexivity ].
    rewrite exec_after_label_colon.
    destruct rest as [|d V]; [reflexivity|].
    destruct (Ascii.eqb_spec d " ") as [-> |Hd].
    + rewrite runes_ascii by reflexivity.
      change (Regexp.rune_is " " (Utf8.rune (Utf8.Token (byte_of " ") " ")))
        with true. cbv iota. cbn [andb].
      destruct (has_byte newline V) eqn:HV; cbn [negb].
      * destruct (has_byte_cut _ _ HV) as (V1 & V2 & CV).
        apply cut_at_Some in CV as [-> HV1].
        rewrite runes_app by reflexivity. rewrite runes_ascii by reflexivity.
        rewrite exec_Star_run;
          [ reflexivity
          | apply value_runes, (runes_without newline V1 eq_refl HV1)
          | reflexivity
          | reflexivity ].
      * pose proof (runes_without newline V eq_refl HV) as HB.
        rewrite <- (app_nil_r (Utf8.runes V)) at 1.
        rewrite exec_Star_run;
          [ | apply value_runes; exact HB | reflexivity | exact I ].
        cbn [at_end].
        rewrite <- (bytes_runes V) at 3.
        replace (a0 :: A ++ Utf8.Token (byte_of ":") ":"
                    :: Utf8.Token (byte_of " ") " " :: Utf8.runes V)
          with ((a0 :: A ++ [Utf8.Token (byte_of ":") ":";
                             Utf8.Token (byte_of " ") " "]) ++ Utf8.runes V)
          by (cbn [app]; rewrite <- app_assoc; reflexivity).
        apply slice_app; cbn [length]; rewrite ?length_app; cbn [length]; lia.
    + destruct (runes_head " " d V eq_refl Hd) as (t & ts & -> & Ht).
      unfold Regexp.rune_is.
      destruct (N.eqb_spec (Utf8.rune t) (byte_of " ")); [contradiction|].
      reflexivity.
  - apply cut_at_None in C.
    pose proof (runes_without ":" line eq_refl C) as HA.
    destruct (Utf8.runes line) as [|a0 A]; [reflexivity|].
    inversion HA as [|? ? Ha0 HA']; subst.
    rewrite match_at_PCPValue, (rune_is_not_true _ _ Ha0).
    rewrite <- (app_nil_r A).
    rewrite exec_Star_run;
      [ reflexivity
      | apply label_runes; exact HA'
      | intros t inp pos' Ht; apply exec_after_label_other;
        exact (proj1 (List.Forall_forall _ _) HA' t Ht)
      | exact I ].
Qed.

(** *** Decimal texts *)

Lemma string_of_uint_unsigned (d : Decimal.uint) :
  String.prefix "-" (NilEmpty.string_of_uint d) = false.
Proof. destruct d; reflexivity. Qed.

Lemma Itoa_sign (n : Z) :
  Strings.HasPrefix (Strconv.Itoa n) "-" = (n <? 0)%Z.
Proof.
  unfold Strings.HasPrefix, Strconv.Itoa.
  destruct n as [|p|p]; [reflexivity| |];
    cbn [Z.to_int NilZero.string_of_int]; unfold NilZero.string_of_uint.
  - destruct (Pos.to_uint p); reflexivity.
  - cbn. destruct (Pos.to_uint p); reflexivity.
Qed.

(** X18.  Without the credentials-file capability [ExecNodeInfo] runs one
    command, pcp_node_info, with the environment left alone.  A node
    number that is not negative is the last argument, after [-v] and the
    connection operands; a negative one starts with [-], so it is taken
    for an option and goes first, before [-v] and the connection
    operands. *)
Theorem ExecNodeInfo_node_argument
        (ParseFloat : string -> spec_float * option error)
        (W : Type) (h : World W) (w : W) (c : Client) (nodeID : Z) :
  pcpPassFileSupport c = false ->
  events h w (ExecNodeInfo ParseFloat c nodeID)
  = [EvRun PCPNodeInfo None
           (if (nodeID <? 0)%Z
            then Strconv.Itoa nodeID :: "-v" :: connection c
            else "-v" :: connection c ++ [Strconv.Itoa nodeID])].
Proof.
  intros Hlegacy. unfold events, ExecNodeInfo. rewrite Hlegacy.
  rewrite perform_bind, execPCPCommand_run.
  unfold execPCPCommand_args. rewrite Hlegacy. cbn [fst snd].
  unfold positionalArgs. rewrite !fold_left_select.
  cbn [List.filter]. rewrite Itoa_sign.
  change (Strings.HasPrefix "-v" "-") with true.
  destruct (nodeID <? 0)%Z; cbn [negb app];
    match goal with
    | |- context [on_run h w ?a ?b ?d] => destruct (on_run h w a b d) as [r w1]
    end; cbn [fst snd]; unfold wrapped;
    destruct (run_err r); cbn [fst snd];
    try reflexivity;
    match goal with
    | |- context [NodeInfoUnmarshal ?f ?b] =>
      destruct (NodeInfoUnmarshal f b) as [ni [e|]]; reflexivity
    end.
Qed.

Lemma ExecNodeInfo_node_argument_witness :
  events probe_only_world tt (ExecNodeInfo ParseFloat_decimal legacy_client (-1))
  = [EvRun PCPNodeInfo None ["-1"; "-v"; "5"; "h"; "10"; "u"; "p"]].
Proof.
  exact (ExecNodeInfo_node_argument ParseFloat_decimal unit probe_only_world tt
           legacy_client (-1) eq_refl).
Defined.

Lemma of_uint_acc_le (d : Decimal.uint) (acc : positive) :
  (acc <= Pos.of_uint_acc d acc)%positive.
Proof.
  revert acc. induction d; intros acc; cbn [Pos.of_uint_acc]; [lia|..];
    match goal with
    | |- (_ <= Pos.of_uint_acc _ ?a)%positive => specialize (IHd a)
    end; lia.
Qed.

Lemma digits_value_digit (c : ascii) (acc n : Z) (s : string) :
  Strconv.is_digit c = true ->
  (10 * acc + Z.of_N (byte_of c - 48))%Z = n ->
  (n <= Strconv.maxUint64)%Z ->
  Strconv.digits_value acc (String c s) = Strconv.digits_value n s.
Proof.
  intros Hc Hn Hle. cbn [Strconv.digits_value]. rewrite Hc. cbv zeta.
  rewrite Hn. destruct (Z.ltb_spec Strconv.maxUint64 n); [lia|reflexivity].
Qed.

Lemma digits_value_acc (d : Decimal.uint) (acc : positive) :
  (Z.pos (Pos.of_uint_acc d acc) <= Strconv.maxUint64)%Z ->
  Strconv.digits_value (Z.pos acc) (NilEmpty.string_of_uint d)
  = Some (Z.pos (Pos.of_uint_acc d acc)).
Proof.
  revert acc. induction d; intros acc Hb;
    cbn [NilEmpty.string_of_uint Pos.of_uint_acc] in *;
    [reflexivity|..];
    match goal with
    | |- context [Pos.of_uint_acc d ?a] =>
      pose proof (of_uint_acc_le d a) as Hle;
      rewrite (digits_value_digit _ _ (Z.pos a));
        [apply IHd; exact Hb | reflexivity | | lia]
    end;
    match goal with
    | |- context [Z.of_N (byte_of ?c - 48)] =>
      let v := eval vm_compute in (Z.of_N (byte_of c - 48)) in
      change (Z.of_N (byte_of c - 48)) with v
    end; lia.
Qed.

Lemma digits_value_uint (d : Decimal.uint) :
  (Z.of_N (Pos.of_uint d) <= Strconv.maxUint64)%Z ->
  Strconv.digits_value 0 (NilEmpty.string_of_uint d)
  = Some (Z.of_N (Pos.of_uint d)).
Proof.
  induction d; intros Hb;
    cbn [NilEmpty.string_of_uint Pos.of_uint] in *;
    [reflexivity|..];
    match goal with
    | |- Strconv.digits_value 0 (String ?c _) = _ =>
      let v := eval vm_compute in (10 * 0 + Z.of_N (byte_of c - 48))%Z in
      rewrite (digits_value_digit c 0 v);
        [ | reflexivity | reflexivity | unfold Strconv.maxUint64; lia ]
    end;
    [exact (IHd Hb) | apply digits_value_acc; exact Hb ..].
Qed.

Lemma digits_value_to_uint (p : positive) :
  (Z.pos p <= Strconv.maxUint64)%Z ->
  exists c s,
    NilZero.string_of_uint (Pos.to_uint p) = String c s
    /\ Ascii.eqb c "+" = false /\ Ascii.eqb c "-" = false
    /\ Strconv.digits_value 0 (String c s) = Some (Z.pos p).
Proof.
  intros Hb. pose proof (digits_value_uint (Pos.to_uint p)) as Hv.
  rewrite Unsigned.of_to in Hv. specialize (Hv Hb).
  pose proof (Unsigned.to_uint_nonnil p) as Hnil.
  unfold NilZero.string_of_uint.
  destruct (Pos.to_uint p); [congruence|..];
    cbn [NilEmpty.string_of_uint] in *;
    eexists _, _; (split; [reflexivity|]);
    (split; [reflexivity|]); (split; [reflexivity|]); exact Hv.
Qed.

(** [strconv.Atoi] reads back what [strconv.Itoa] writes of an [int]. *)
Lemma Atoi_Itoa (n : Z) :
  (- 2 ^ 63 <= n < 2 ^ 63)%Z -> Strconv.Atoi (Strconv.Itoa n) = (n, None).
Proof.
  intros Hn. unfold Strconv.Atoi, Strconv.Itoa.
  destruct n as [|p|p]; [reflexivity| |];
    cbn [Z.to_int NilZero.string_of_int];
    (destruct (digits_value_to_uint p) as (c & s & -> & Hplus & Hminus & Hv);
     [unfold Strconv.maxUint64; lia|]).
  - unfold Strconv.parse_int. rewrite Hplus, Hminus. cbn [orb negb andb].
    rewrite Hv.
    destruct (Z.leb_spec (2 ^ 63) (Z.pos p)); [lia|reflexivity].
  - unfold Strconv.parse_int.
    change (Ascii.eqb "-" "-") with true. change (Ascii.eqb "-" "+") with false.
    cbn [orb negb andb]. rewrite Hv.
    destruct (Z.ltb_spec (2 ^ 63) (Z.pos p)); [lia|reflexivity].
Qed.

Lemma plain_uint (d : Decimal.uint) : plain (NilEmpty.string_of_uint d) = true.
Proof. induction d; cbn [NilEmpty.string_of_uint plain]; auto. Qed.

Lemma plain_Itoa (n : Z) : plain (Strconv.Itoa n) = true.
Proof.
  unfold Strconv.Itoa.
  destruct n as [|p|p]; [reflexivity| |];
    cbn [Z.to_int NilZero.string_of_int plain]; unfold NilZero.string_of_uint;
    pose proof (plain_uint (Pos.to_uint p)) as Hp;
    destruct (Pos.to_uint p); try reflexivity; try exact Hp;
    cbn [plain]; rewrite Hp; reflexivity.
Qed.

Lemma runes_plain (s : string) :
  plain s = true ->
  Forall (fun t => Unicode.IsSpace (Utf8.rune t) = false) (Utf8.runes s).
Proof.
  induction s as [|c s IH]; cbn [plain]; intros H; [constructor|].
  apply andb_prop in H as [Hc Hs]. unfold plain_byte in Hc.
  apply andb_prop in Hc as [Ha Hsp].
  rewrite runes_ascii by exact Ha. constructor; [|auto].
  cbn [Utf8.rune]. destruct (Unicode.IsSpace (byte_of c)); [discriminate|reflexivity].
Qed.

Lemma drop_spaces_none (ts : list Utf8.token) :
  Forall (fun t => Unicode.IsSpace (Utf8.rune t) = false) ts ->
  Strings.drop_spaces ts = ts.
Proof.
  intros H. destruct H as [|t ts Ht _]; [reflexivity|].
  cbn [Strings.drop_spaces]. rewrite Ht. reflexivity.
Qed.

Lemma trim_tokens (A : list Utf8.token) (t : Utf8.token) :
  Forall (fun t => Unicode.IsSpace (Utf8.rune t) = false) A ->
  Unicode.IsSpace (Utf8.rune t) = true ->
  rev (Strings.drop_spaces (rev (Strings.drop_spaces (A ++ [t])))) = A.
Proof.
  intros HA Ht. destruct A as [|a A].
  - cbn [app Strings.drop_spaces]. rewrite Ht. reflexivity.
  - cbn [app Strings.drop_spaces].
    rewrite (proj1 (List.Forall_forall _ _) HA a (or_introl eq_refl)).
    change (a :: A ++ [t]) with ((a :: A) ++ [t]).
    rewrite rev_app_distr. cbn [rev app Strings.drop_spaces]. rewrite Ht.
    change (rev A ++ [a]) with (rev (a :: A)).
    rewrite drop_spaces_none; [apply rev_involutive|].
    apply List.Forall_rev. exact HA.
Qed.

Lemma TrimSpace_plain (s : string) :
  plain s = true -> Strings.TrimSpace (s +:+ nl) = s.
Proof.
  intros Hs. pose proof (runes_plain s Hs) as HA.
  unfold Strings.TrimSpace, nl.
  rewrite runes_app by reflexivity. rewrite runes_ascii by reflexivity.
  change (Utf8.runes "") with (@nil Utf8.token).
  rewrite trim_tokens; [apply bytes_runes|exact HA|reflexivity].
Qed.

(** X19.  [ExecNodeCount] never gives a count other than 0 together with
    an error.  When the command succeeds and prints an [int] in decimal
    followed by a newline, the result is that number without error; when
    what it prints is empty once trimmed the result is 0 without error. *)
Theorem ExecNodeCount_count
        (W : Type) (h : World W) (w w1 : W) (c : Client) (r : RunResult) :
  on_run h w PCPNodeCount (fst (execPCPCommand_args c []))
         (snd (execPCPCommand_args c [])) = (r, w1) ->
  (snd (result h w (ExecNodeCount c)) <> None ->
   fst (result h w (ExecNodeCount c)) = 0%Z)
  /\ (forall n : Z,
        (- 2 ^ 63 <= n < 2 ^ 63)%Z ->
        run_err r = None -> stdout r = Strconv.Itoa n +:+ nl ->
        result h w (ExecNodeCount c) = (n, None))
  /\ (run_err r = None -> Strings.TrimSpace (stdout r) = "" ->
      result h w (ExecNodeCount c) = (0%Z, None)).
Proof.
  intros Hrun. unfold result, ExecNodeCount.
  rewrite perform_bind, execPCPCommand_run. cbn [fst snd]. rewrite Hrun.
  cbn [fst snd]. unfold wrapped.
  split; [|split].
  - destruct (run_err r); [reflexivity|].
    destruct (String.length (Strings.TrimSpace (stdout r)) =? 0);
      [intros H; now elim H|].
    destruct (Strconv.Atoi (Strings.TrimSpace (stdout r))) as [v [e|]];
      [reflexivity|intros H; now elim H].
  - intros n Hn -> ->. rewrite TrimSpace_plain by apply plain_Itoa.
    rewrite Atoi_Itoa by exact Hn.
    destruct (String.length (Strconv.Itoa n) =? 0) eqn:E; [|reflexivity].
    apply Nat.eqb_eq in E. destruct (Strconv.Itoa n) eqn:EI; [|discriminate].
    pose proof (Atoi_Itoa n Hn) as HA. rewrite EI in HA.
    cbn in HA. discriminate.
  - intros -> ->. reflexivity.
Qed.

Lemma ExecNodeCount_count_witness :
  result (printing_world ("3" +:+ nl)) tt (ExecNodeCount legacy_client)
  = (3%Z, None).
Proof.
  apply (proj1 (proj2 (ExecNodeCount_count unit (printing_world ("3" +:+ nl))
                         tt tt legacy_client _ eq_refl)) 3%Z);
    [lia | reflexivity | reflexivity].
Defined.
